(* ===== verification/_CoqProject ===== *)
-Q . S2P
Prelude.v
JSNum.v
Boid.v
Population.v
Collisions.v
Forces.v
Frame.v
Render.v
Host.v
