(* ===== verification/Prelude.v ===== *)
(** * Fireflies: a verification development of [src/script.js]

    [src/script.js] is a boids ("fireflies") simulation drawn on an HTML
    canvas.  Its state is the global array [boids] of agent objects, the
    timestamp [lastTime], and, implicitly, the host's random source.
    [init] (lines 32-41) creates [boidAmount] agents with [newBoid]
    (240-251) and runs the first frame; every frame [loop] (43-75) reads the
    clock, runs the population controller (47-60), then calls
    [updateBoid(i, deltaTime)] (77-93) and [drawBoid(i)] on every index in
    order and schedules the next frame.  [updateBoid] takes a random wander
    step (81), calls [applyForces] (95-166: the neighbour scan, the soft
    boundary force, the separation factor and the new heading), calls
    [applyCollisions] (168-192: in-place pair corrections against the
    later agents, then the clamp of the agent into the canvas), and
    finally integrates the position (91-92).

    ** Files and what they model

    - [Prelude] (this file): boolean comparisons on [R]; the tactics
      [case_R], [solve_R], [case_ifs_with]; the hint databases [fireflies]
      and [fireflies_rw]; the state-and-error monad [ST St A = St -> option
      (A * St)], where [None] is an uncaught [TypeError] (a property read
      of [undefined]), with the notation [do x <- m; k]; the JavaScript
      [for] loop [js_for] whose bound is read before every iteration and
      which fails ([st_fail]) when its fuel runs out while its test still
      holds; [js_for_seq], which shows that the fuel given to it (the
      array's length) is enough whenever the body keeps the bound, and
      [js_for_fuel_mono] (more fuel changes no result); [push]/[pop] as
      [js_push]/[js_pop] ([pop] on an empty array does nothing); the
      pointwise equivalence [m1 ≈ m2] of computations, which [st_bind]
      and [js_for] respect ([Proper] instances).
    - [JSNum]: JavaScript numbers as [num = Fin r | PInf | NInf | NaN],
      with the IEEE rules for the special values in [+ - * /], the
      comparisons (NaN compares false), [Math.min], [Math.sqrt],
      [Math.cos], [Math.sin], [Math.atan2] (ECMA-262 special cases), and
      [Ratan2_polar]: [atan2] gives the polar angle, and [Ratan2_angle]:
      it inverts [(cos a, sin a)] on [(-PI, PI]].
    - [Boid]: the agent record [boid] (the object literal of [newBoid]),
      the constants of lines 8-21, the host values as the classes
      [Screen] ([window.innerWidth], [innerHeight]) and [Rng]
      ([Math.random()], the [k]-th draw in [[0, 1)]); the global state
      [world = {boids; lastTime; draws}] ([draws] counts the random numbers
      used); [newBoid] with its seven draws in object-literal order;
      [get_boid]/[set_boid] (a read of [boids[i]] and a write through a
      reference to that slot: the agents never alias); the shape
      invariant [boid_ok] (size in [[2, 10)], speed in [[200, 220)]) and
      [frame_local] (what a step on agent [index] may change).
    - [Population]: [deltaTimeOf], [fpsOf], [growTest], [shrinkTest] and
      [loopHead], the controller of lines 47-60.
    - [Collisions]: [collidePair] (172-185), [clampBoid] (188-191),
      [collideStep] (one iteration of the loop on the array) and
      [applyCollisions]; [collideAt]/[collideLoop] are the same loop as a
      fold on the list, proved equal to the [for] loop.
    - [Forces]: [softBoundForce] (100-108), the sight and crowding tests
      [spots]/[crowds], [scanStep]/[scan] (the loop of 110-134), [steer]
      (136-165: early return, averages, [sepFactor], [newVel],
      [headingOf]) and [applyForces]; [neighbours]/[crowd] are the
      reference description of the scan by filters.
    - [Frame]: [wanderStep] (81), [integrate] (91-92), [updateBoid],
      [loop] (without drawing), [pushNewBoid], [init] (without the canvas
      set-up), [initialWorld], and the inductive [reachable] of the states
      the script reaches: [init] at a timestamp [t >= 0], then frames with
      non-decreasing timestamps; [run_frames], the frames of a display
      that refreshes every [delta] ms ([requestAnimationFrame]).
    - [Render]: the canvas as a trace of the calls the script makes on
      the browser ([cmd]: the 2D context and [requestAnimationFrame]);
      the state of the whole script is a [scene], the [world] and the
      trace; [drawBoid] (194-221), [drawFps] (62-67), [frame] ([loop]
      with its drawing and its final [requestAnimationFrame(loop)],
      43-75) and [boot] ([init] with the canvas
      sizing, 32-41); [refines m m'] says that [m'] runs as [m] on the
      world and only appends to the trace.
    - [Host]: the browser around the script: the page [Loaded] before
      [init();] (line 253), [Waiting] with a frame requested, [Stopped]
      once a callback threw or returned without calling
      [requestAnimationFrame]; [host_next t] is a repaint at clock [t]: it
      runs [boot] or [frame] and [after_run] looks at the calls that run
      made; [host_step] lets the browser pick any [t] not before the last
      reading of [performance.now()]; [host_reach] are the pages reached
      from [page0].

    Operations that may throw are [ST world _] computations and are
    composed in the order of the source; every theorem that an operation
    runs says so ([= Some (tt, w')]), with enough fuel, never only "if it
    returns".

    ** What is proved (claims C1-C29 of the manifest)

    - Whole program ([Frame]): every reachable state has between 10 and
      500 agents of the right shape, each coordinate NaN or within 4.52 px
      of the clamp band, and the next frame runs without throwing
      ([reachable_frame_inv], by rule induction over [reachable]); the
      hard clamp does not hold at the end of a frame ([loop_leaves_clamp]:
      the clamp of [applyCollisions] comes before the integration step);
      a frame keeps the size, speed and colour of every existing agent
      ([loop_keeps_shape]); for an agent with no neighbour in sight,
      [updateBoid] is the wander step, the collision pass and the
      integration of the agent it left, with the old heading and speed
      ([updateBoid_no_neighbour]); [init] and every frame, from any state
      and at any timestamp, return within their fuel and set [lastTime]
      ([script_terminates]); on a
      display faster than 60 Hz the population reaches 500, one agent per
      frame ([fast_frames_fill]).
    - Browser ([Host]): every page the browser reaches is the initial
      page or holds a [reachable] world whose [lastTime] is the last clock
      reading, so the browser's schedules are among those [Frame] covers
      ([host_refines_reachable]); every repaint runs a frame whose last
      call is [requestAnimationFrame(loop)], so the animation never stops
      ([host_runs_forever]).
    - Rendering ([Render]): the script with its drawing refines the
      simulation ([render_refines_simulation]), a frame draws every agent
      at its final position, in index order, then requests the next frame
      ([frame_trace]), and the white
      dot of an agent lies [size] away in the direction of its heading
      ([drawBoid_heading_dot]).
    - Controller ([Population]): at most 500 agents, a change of at most
      one per frame; with a forward clock the 20 ms cap keeps the FPS
      estimate at 50 or more, so the shrink branch never fires; a
      backward clock pops, and [pop] on [[]] does not throw.
    - Collisions: the pair correction moves overlapping agents exactly
      [size0 + size1] apart; coincident
      agents get NaN coordinates; the clamp puts every non-NaN
      coordinate into the canvas and equals [min (extent - size) (max
      size v)] on every input; [applyCollisions] is local to [index].
    - Agents ([Boid]): [newBoid] returns finite fields in their ranges.
    - Forces: symmetry of the sight and crowding tests; the one-pass scan
      equals the reference sums over the filtered lists; the early return
      when no agent is in sight; [applyForces] writes only the angle; the
      separation factor is finite and guarded at 0; the new heading
      points along the new velocity, is the agent's own angle for its own
      velocity (a round trip);
      the soft boundary force points outward in a band of width [size].

    ** Bounds and fuel

    [js_for] is given the array's length as fuel and fails if the fuel
    runs out before its test [i < length] does, so a loop written with
    another test (say [i <= length]) makes the frame fail; [js_for_seq]
    shows that the length is enough since neither [updateBoid] nor the
    collision step changes it, and [js_for_fuel_mono] that more fuel
    would change nothing.  [deltaTime] lies in [[0, 0.02]] s on a forward
    clock (the 20 ms cap), speeds are below 220 px/s and the wander radius
    is 6, so one integration step moves a coordinate by at most
    [226 * 0.02 = 4.52] px: that is the margin of the frame invariant.  A
    window of at least 20 x 20 makes every agent (size below 10) fit the
    clamp.

    ** Not modelled

    The DOM lookup and [canvas.getContext] (lines 1-2) only produce the
    canvas, which is modelled as the trace of the calls made on it, not
    as pixels,
    and the text of [fps.toFixed(1)] is kept as the number [fps].  The
    clock [performance.now()] is the timestamp argument of [loop]; its
    readings are the browser's choice ([host_step]) under the one
    constraint that they never go back.  Numbers are reals extended with
    the infinities and NaN: the rounding of binary64 and the sign of zero
    are not modelled, so the theorems hold for exact arithmetic (which is
    why no theorem claims that a sum is independent of its order).  The colour string is kept as
    its hue. *)

From Stdlib Require Export Reals Lra.
From stdpp Require Export base list.

Declare Scope st_scope.
Delimit Scope st_scope with st.

Create HintDb fireflies.
Create Rewrite HintDb fireflies_rw.

Open Scope R_scope.

(** ** Boolean comparisons on the reals

    The comparisons of the program return booleans; over [R] they are
    decided by the classical total order of the Standard Library. *)

Definition Rltb (a b : R) : bool := if Rlt_dec a b then true else false.
Definition Reqb (a b : R) : bool := if Req_dec_T a b then true else false.

Lemma Rltb_spec (a b : R) : BoolSpec (a < b) (b <= a) (Rltb a b).
Proof. unfold Rltb. destruct (Rlt_dec a b); constructor; lra. Qed.

Lemma Reqb_spec (a b : R) : BoolSpec (a = b) (a <> b) (Reqb a b).
Proof. unfold Reqb. destruct (Req_dec_T a b); constructor; auto. Qed.

Lemma Rltb_true (a b : R) : a < b -> Rltb a b = true.
Proof. intros H. destruct (Rltb_spec a b); [reflexivity | lra]. Qed.

Lemma Rltb_false (a b : R) : b <= a -> Rltb a b = false.
Proof. intros H. destruct (Rltb_spec a b); [lra | reflexivity]. Qed.

Lemma Reqb_true (a b : R) : a = b -> Reqb a b = true.
Proof. intros H. destruct (Reqb_spec a b); [reflexivity | contradiction]. Qed.

Lemma Reqb_false (a b : R) : a <> b -> Reqb a b = false.
Proof. intros H. destruct (Reqb_spec a b); [contradiction | reflexivity]. Qed.

Lemma sumsq_nonneg (a b : R) : 0 <= a * a + b * b.
Proof. nra. Qed.

#[export] Hint Resolve sumsq_nonneg : fireflies.

(** The distance between two points on the x axis. *)
Lemma sqrt_axis (a : R) : 0 <= a -> sqrt ((a - 0) * (a - 0) + (0 - 0) * (0 - 0)) = a.
Proof.
  intros Ha. replace ((a - 0) * (a - 0) + (0 - 0) * (0 - 0)) with (a * a) by ring.
  apply sqrt_square, Ha.
Qed.

(** Case on the first real comparison of the goal. *)
Ltac case_R :=
  match goal with
  | |- context [Rltb ?a ?b] => destruct (Rltb_spec a b)
  | |- context [Reqb ?a ?b] => destruct (Reqb_spec a b); [subst |]
  end.

(** Decide every real comparison whose outcome follows linearly from the
    context. *)
Ltac solve_R :=
  repeat first
    [ rewrite Rltb_true by lra
    | rewrite Rltb_false by lra
    | rewrite Reqb_true by lra
    | rewrite Reqb_false by lra ].

(** Split on every [if] of the goal, simplifying with [simp] in between
    (which must leave the tests themselves alone), and close the branches
    that become reflexive. *)
Ltac case_ifs_with simp :=
  repeat (simp; match goal with
                | |- context [if ?c then _ else _] =>
                    lazymatch c with context [if _ then _ else _] => fail | _ => destruct c end
                end);
  simp; repeat split.

(** ** A state monad with failure

    JavaScript code that reads a property of [undefined] throws a
    [TypeError] and the animation loop stops: such code is modelled in
    [ST S A], where [None] is the uncaught exception. *)

Definition ST (St A : Type) : Type := St -> option (A * St).

Definition st_ret {St A} (a : A) : ST St A := fun s => Some (a, s).
Definition st_bind {St A B} (m : ST St A) (k : A -> ST St B) : ST St B :=
  fun s => match m s with Some (a, s') => k a s' | None => None end.
Definition st_get {St} : ST St St := fun s => Some (s, s).
Definition st_put {St} (s : St) : ST St unit := fun _ => Some (tt, s).
Definition st_modify {St} (f : St -> St) : ST St unit := fun s => Some (tt, f s).
(** An [undefined] read: [None] throws, [Some a] yields [a]. *)
Definition st_lift {St A} (o : option A) : ST St A :=
  fun s => match o with Some a => Some (a, s) | None => None end.

Notation "'do' x <- m ; k" := (st_bind m (fun x => k))
  (at level 60, m at next level, right associativity) : st_scope.
Notation "'do' m ; k" := (st_bind m (fun _ => k))
  (at level 60, right associativity) : st_scope.

Open Scope st_scope.

Lemma st_bind_ret_l {St A B} (a : A) (k : A -> ST St B) s :
  st_bind (st_ret a) k s = k a s.
Proof. reflexivity. Qed.

Lemma st_bind_assoc {St A B C} (m : ST St A) (k : A -> ST St B) (h : B -> ST St C) s :
  st_bind (st_bind m k) h s = st_bind m (fun a => st_bind (k a) h) s.
Proof. unfold st_bind. destruct (m s) as [[a s']|]; reflexivity. Qed.

Lemma st_bind_some {St A B} (m : ST St A) (k : A -> ST St B) s a s' :
  m s = Some (a, s') -> st_bind m k s = k a s'.
Proof. unfold st_bind. intros ->. reflexivity. Qed.

Lemma st_bind_none {St A B} (m : ST St A) (k : A -> ST St B) s :
  m s = None -> st_bind m k s = None.
Proof. unfold st_bind. intros ->. reflexivity. Qed.

#[export] Hint Rewrite @st_bind_ret_l @st_bind_assoc : fireflies_rw.

(** ** The JavaScript [for] loop

    [for (let i = i0; i < bound(state); i++) body(i)]: the bound is read
    again before every iteration.  [js_for fuel] runs at most [fuel]
    iterations: a loop whose test still holds when the fuel is spent fails
    ([None]) instead of returning, so a run that returns has left the loop
    through its own test.  [js_for_seq] below shows that once the body
    keeps the bound, [bound - i0] iterations are enough, and
    [js_for_fuel_mono] that more fuel changes nothing. *)

(** An exception, or a loop that has not finished within its fuel. *)
Definition st_fail {St A} : ST St A := fun _ => None.

Fixpoint js_for {St} (fuel : nat) (bound : St -> nat) (body : nat -> ST St unit)
    (i : nat) : ST St unit :=
  match fuel with
  | O => do s <- st_get; if (i <? bound s)%nat then st_fail else st_ret tt
  | S f =>
      do s <- st_get;
      if (i <? bound s)%nat then (do body i; js_for f bound body (S i))
      else st_ret tt
  end.

(** Running the body on a fixed list of indices, in order. *)
Fixpoint st_iter {St} (body : nat -> ST St unit) (l : list nat) : ST St unit :=
  match l with
  | [] => st_ret tt
  | i :: l' => do body i; st_iter body l'
  end.

Section JsFor.
Context {St : Type} (bound : St -> nat) (body : nat -> ST St unit).

(** The body does not change the loop bound. *)
Hypothesis body_keeps_bound :
  forall i s s', body i s = Some (tt, s') -> bound s' = bound s.

Lemma js_for_seq fuel i s :
  (bound s - i <= fuel)%nat ->
  js_for fuel bound body i s = st_iter body (seq i (bound s - i)) s.
Proof.
  revert i s. induction fuel as [|f IH]; intros i s Hf.
  - replace (bound s - i)%nat with 0%nat by lia. cbn [js_for]. unfold st_bind, st_get.
    destruct (Nat.ltb_spec i (bound s)); [lia | reflexivity].
  - cbn [js_for]. unfold st_bind at 1, st_get.
    destruct (Nat.ltb_spec i (bound s)) as [Hlt|Hge].
    + replace (bound s - i)%nat with (S (bound s - S i)) by lia.
      cbn [seq st_iter]. unfold st_bind.
      destruct (body i s) as [[[] s']|] eqn:Hb; [|reflexivity].
      pose proof (body_keeps_bound _ _ _ Hb) as E. rewrite <- E.
      apply IH. lia.
    + replace (bound s - i)%nat with 0%nat by lia. reflexivity.
Qed.
End JsFor.

(** More fuel changes no result: a loop that returned within [f]
    iterations returns the same with any [f' >= f]. *)
Lemma js_for_fuel_mono {St} (bound : St -> nat) (body : nat -> ST St unit)
    (f f' i : nat) (s : St) (r : unit * St) :
  (f <= f')%nat -> js_for f bound body i s = Some r -> js_for f' bound body i s = Some r.
Proof.
  revert f' i s. induction f as [|f IH]; intros f' i s Hle R.
  - cbn [js_for] in R. unfold st_bind, st_get in R.
    destruct (i <? bound s)%nat eqn:Hi; [discriminate|].
    destruct f' as [|f']; cbn [js_for]; unfold st_bind, st_get; rewrite Hi; exact R.
  - destruct f' as [|f']; [lia|]. cbn [js_for] in R |- *. unfold st_bind, st_get in R |- *.
    destruct (i <? bound s)%nat; [|exact R].
    destruct (body i s) as [[[] s1]|]; [exact (IH f' (S i) s1 ltac:(lia) R) | discriminate].
Qed.

(** ** Arrays

    [Array.prototype.push] appends at the tail; [Array.prototype.pop]
    removes the tail element and leaves an empty array unchanged. *)

Definition js_push {A} (l : list A) (a : A) : list A := l ++ [a].
Definition js_pop {A} (l : list A) : list A := removelast l.

Lemma length_js_push {A} (l : list A) a : length (js_push l a) = S (length l).
Proof. unfold js_push. rewrite length_app. simpl. lia. Qed.

Lemma length_js_pop {A} (l : list A) : length (js_pop l) = pred (length l).
Proof.
  unfold js_pop. destruct l as [|a l] using rev_ind; [reflexivity|].
  rewrite removelast_last, length_app. simpl. lia.
Qed.

#[export] Hint Rewrite @length_js_push @length_js_pop @length_insert : fireflies_rw.

(** ** Equivalence of computations

    Two computations are equivalent when they agree on every state.
    [st_bind] and [js_for] respect it, so a loop body can be replaced by
    an equivalent one under [setoid_rewrite]. *)

Definition st_eq {St A} (m1 m2 : ST St A) : Prop := forall s, m1 s = m2 s.

Notation "m1 ≈ m2" := (st_eq m1 m2) (at level 70, no associativity) : st_scope.

#[export] Instance st_eq_equiv {St A} : Equivalence (@st_eq St A).
Proof.
  split; [intros m s; reflexivity | intros m1 m2 E s; symmetry; apply E
         | intros m1 m2 m3 E1 E2 s; rewrite E1; apply E2].
Qed.

#[export] Instance st_bind_proper {St A B} :
  Proper (st_eq ==> pointwise_relation A st_eq ==> st_eq) (@st_bind St A B).
Proof.
  intros m1 m2 Em k1 k2 Ek s. unfold st_bind. rewrite Em.
  destruct (m2 s) as [[a s']|]; [apply Ek | reflexivity].
Qed.

#[export] Instance js_for_proper {St} fuel bound :
  Proper (pointwise_relation nat st_eq ==> eq ==> st_eq) (@js_for St fuel bound).
Proof.
  intros b1 b2 Eb i ? <-. revert i. induction fuel as [|f IH]; intros i; [intros s; reflexivity|].
  cbn [js_for]. apply st_bind_proper; [reflexivity|]. intros s.
  destruct (i <? bound s)%nat; [|reflexivity].
  apply st_bind_proper; [apply Eb | intros []; apply IH].
Qed.
