(* ===== verification/JSNum.v ===== *)
(** * JavaScript numbers

    A JavaScript number is an IEEE-754 double.  The script only adds,
    subtracts, multiplies, divides, compares and applies [Math.sqrt],
    [Math.cos], [Math.sin], [Math.atan2] and [Math.min]; what matters for
    its behaviour is where these produce an infinity or NaN (a division by
    zero) and how NaN then flows through comparisons.  A number is
    modelled as a real, [+Infinity], [-Infinity] or [NaN], with the IEEE
    rules for the special values.  Rounding and the sign of zero are not
    modelled: a finite result is the exact real result, and a zero is
    [+0].  [Math.PI] is the real [PI]. *)

From S2P Require Import Prelude.

Declare Scope num_scope.
Delimit Scope num_scope with num.

Inductive num : Type :=
| Fin (r : R)
| PInf
| NInf
| NaN.

Definition inf (pos : bool) : num := if pos then PInf else NInf.

(** ** Arithmetic (ECMA-262 Number::add, ::multiply, ::divide) *)

Definition nneg (x : num) : num :=
  match x with
  | Fin a => Fin (- a) | PInf => NInf | NInf => PInf | NaN => NaN
  end.

Definition nadd (x y : num) : num :=
  match x, y with
  | Fin a, Fin b => Fin (a + b)
  | NaN, _ | _, NaN => NaN
  | PInf, NInf | NInf, PInf => NaN
  | PInf, _ | _, PInf => PInf
  | NInf, _ | _, NInf => NInf
  end.

Definition nsub (x y : num) : num := nadd x (nneg y).

(** A finite [a] times an infinity of sign [pos]. *)
Definition mul_inf (a : R) (pos : bool) : num :=
  if Reqb a 0 then NaN else inf (Bool.eqb (Rltb 0 a) pos).

Definition nmul (x y : num) : num :=
  match x, y with
  | Fin a, Fin b => Fin (a * b)
  | NaN, _ | _, NaN => NaN
  | Fin a, PInf | PInf, Fin a => mul_inf a true
  | Fin a, NInf | NInf, Fin a => mul_inf a false
  | PInf, PInf | NInf, NInf => PInf
  | PInf, NInf | NInf, PInf => NInf
  end.

Definition ndiv (x y : num) : num :=
  match x, y with
  | Fin a, Fin b =>
      if Reqb b 0 then (if Reqb a 0 then NaN else inf (Rltb 0 a))
      else Fin (a / b)
  | NaN, _ | _, NaN => NaN
  | Fin _, PInf | Fin _, NInf => Fin 0
  | PInf, Fin b => if Reqb b 0 then PInf else inf (Rltb 0 b)
  | NInf, Fin b => if Reqb b 0 then NInf else inf (Rltb b 0)
  | _, _ => NaN
  end.

(** ** Relational operators (IsLessThan): NaN compares false *)

Definition nlt (x y : num) : bool :=
  match x with
  | NaN => false
  | PInf => false
  | NInf => match y with NaN | NInf => false | _ => true end
  | Fin a => match y with Fin b => Rltb a b | PInf => true | _ => false end
  end.

Definition ngt (x y : num) : bool := nlt y x.

(** [x == y] on numbers. *)
Definition neqb (x y : num) : bool :=
  match x, y with
  | Fin a, Fin b => Reqb a b
  | PInf, PInf | NInf, NInf => true
  | _, _ => false
  end.

(** ** [Math] *)

(** [Math.min(x, y)]: NaN if an argument is NaN, else the smaller one. *)
Definition nmin (x y : num) : num :=
  match x, y with
  | NaN, _ | _, NaN => NaN
  | _, _ => if nlt y x then y else x
  end.

Definition nsqrt (x : num) : num :=
  match x with
  | Fin a => if Rltb a 0 then NaN else Fin (sqrt a)
  | PInf => PInf
  | _ => NaN
  end.

Definition ncos (x : num) : num := match x with Fin a => Fin (cos a) | _ => NaN end.
Definition nsin (x : num) : num := match x with Fin a => Fin (sin a) | _ => NaN end.

(** The angle of the point [(x, y)] in [(-PI, PI]], for finite arguments. *)
Definition Ratan2 (y x : R) : R :=
  if Rltb 0 x then atan (y / x)
  else if Rltb x 0 then (if Rltb y 0 then atan (y / x) - PI else atan (y / x) + PI)
  else if Rltb 0 y then PI / 2
  else if Rltb y 0 then - (PI / 2)
  else 0.

(** [Math.atan2(y, x)], with the special values of ECMA-262 21.3.2.8. *)
Definition natan2 (y x : num) : num :=
  match y, x with
  | NaN, _ | _, NaN => NaN
  | PInf, PInf => Fin (PI / 4)
  | PInf, NInf => Fin (3 * PI / 4)
  | PInf, Fin _ => Fin (PI / 2)
  | NInf, PInf => Fin (- (PI / 4))
  | NInf, NInf => Fin (- (3 * PI / 4))
  | NInf, Fin _ => Fin (- (PI / 2))
  | Fin _, PInf => Fin 0
  | Fin b, NInf => Fin (if Rltb b 0 then - PI else PI)
  | Fin b, Fin a => Fin (Ratan2 b a)
  end.

Definition nPI : num := Fin PI.

(** A count kept in a JavaScript variable ([boidsSpotted++]). *)
Definition nat_num (n : nat) : num := Fin (INR n).

Infix "+" := nadd : num_scope.
Infix "-" := nsub : num_scope.
Infix "*" := nmul : num_scope.
Infix "/" := ndiv : num_scope.
Infix "<?" := nlt (at level 70) : num_scope.
Infix ">?" := ngt (at level 70) : num_scope.
Infix "==?" := neqb (at level 70) : num_scope.

(** ** Classification *)

Definition is_nan (x : num) : bool := match x with NaN => true | _ => false end.
Definition finite (x : num) : Prop := exists r, x = Fin r.
Definition fin_val (x : num) : R := match x with Fin r => r | _ => 0 end.

(** ** Rewriting finite operations to real ones *)

Lemma nadd_fin a b : nadd (Fin a) (Fin b) = Fin (a + b).
Proof. reflexivity. Qed.
Lemma nsub_fin a b : nsub (Fin a) (Fin b) = Fin (a - b).
Proof. reflexivity. Qed.
Lemma nmul_fin a b : nmul (Fin a) (Fin b) = Fin (a * b).
Proof. reflexivity. Qed.
Lemma nneg_fin a : nneg (Fin a) = Fin (- a).
Proof. reflexivity. Qed.
Lemma ncos_fin a : ncos (Fin a) = Fin (cos a).
Proof. reflexivity. Qed.
Lemma nsin_fin a : nsin (Fin a) = Fin (sin a).
Proof. reflexivity. Qed.
Lemma nlt_fin a b : nlt (Fin a) (Fin b) = Rltb a b.
Proof. reflexivity. Qed.
Lemma ngt_fin a b : ngt (Fin a) (Fin b) = Rltb b a.
Proof. reflexivity. Qed.
Lemma neqb_fin a b : neqb (Fin a) (Fin b) = Reqb a b.
Proof. reflexivity. Qed.
Lemma natan2_fin a b : natan2 (Fin b) (Fin a) = Fin (Ratan2 b a).
Proof. reflexivity. Qed.

Lemma ndiv_fin a b : b <> 0 -> ndiv (Fin a) (Fin b) = Fin (a / b).
Proof. intros H. unfold ndiv. rewrite Reqb_false by exact H. reflexivity. Qed.

Lemma ndiv_zero_zero : ndiv (Fin 0) (Fin 0) = NaN.
Proof. unfold ndiv. rewrite Reqb_true by reflexivity. reflexivity. Qed.

Lemma ndiv_pos_zero a : 0 < a -> ndiv (Fin a) (Fin 0) = PInf.
Proof.
  intros H. unfold ndiv. rewrite Reqb_true, Reqb_false, Rltb_true by lra.
  reflexivity.
Qed.

Lemma nsqrt_fin a : 0 <= a -> nsqrt (Fin a) = Fin (sqrt a).
Proof. intros H. unfold nsqrt. rewrite Rltb_false by lra. reflexivity. Qed.

Lemma nmin_fin a b : nmin (Fin a) (Fin b) = Fin (Rmin a b).
Proof.
  unfold nmin. rewrite nlt_fin. unfold Rmin.
  destruct (Rltb_spec b a), (Rle_dec a b); f_equal; lra.
Qed.

#[export] Hint Rewrite nadd_fin nsub_fin nmul_fin nneg_fin ncos_fin nsin_fin
  nlt_fin ngt_fin neqb_fin natan2_fin nmin_fin : fireflies_rw.
#[export] Hint Rewrite ndiv_fin nsqrt_fin using lra : fireflies_rw.

Lemma nsqrt_sumsq a b : nsqrt (Fin (a * a + b * b)) = Fin (sqrt (a * a + b * b)).
Proof. apply nsqrt_fin, sumsq_nonneg. Qed.

#[export] Hint Rewrite nsqrt_sumsq : fireflies_rw.

(** ** NaN is absorbing *)

Lemma nadd_nan_l x : nadd NaN x = NaN.
Proof. reflexivity. Qed.
Lemma nadd_nan_r x : nadd x NaN = NaN.
Proof. destruct x; reflexivity. Qed.
Lemma nsub_nan_l x : nsub NaN x = NaN.
Proof. reflexivity. Qed.
Lemma nsub_nan_r x : nsub x NaN = NaN.
Proof. destruct x; reflexivity. Qed.
Lemma nmul_nan_l x : nmul NaN x = NaN.
Proof. reflexivity. Qed.
Lemma nmul_nan_r x : nmul x NaN = NaN.
Proof. destruct x; reflexivity. Qed.
Lemma ndiv_nan_l x : ndiv NaN x = NaN.
Proof. reflexivity. Qed.
Lemma ndiv_nan_r x : ndiv x NaN = NaN.
Proof. destruct x; reflexivity. Qed.
Lemma nlt_nan_l x : nlt NaN x = false.
Proof. reflexivity. Qed.
Lemma nlt_nan_r x : nlt x NaN = false.
Proof. destruct x; reflexivity. Qed.
Lemma ncos_nan : ncos NaN = NaN.
Proof. reflexivity. Qed.
Lemma nsin_nan : nsin NaN = NaN.
Proof. reflexivity. Qed.

#[export] Hint Rewrite nadd_nan_l nadd_nan_r nsub_nan_l nsub_nan_r nmul_nan_l
  nmul_nan_r ndiv_nan_l ndiv_nan_r nlt_nan_l nlt_nan_r ncos_nan nsin_nan
  : fireflies_rw.

(** ** Algebra of the special values *)

Lemma nsub_antisym x y : nsub y x = nneg (nsub x y).
Proof.
  destruct x as [a| | |], y as [b| | |]; cbn; try reflexivity.
  f_equal. lra.
Qed.

Lemma nmul_neg_neg x : nmul (nneg x) (nneg x) = nmul x x.
Proof.
  destruct x as [a| | |]; cbn; try reflexivity. f_equal. lra.
Qed.

Lemma nadd_comm x y : nadd x y = nadd y x.
Proof.
  destruct x as [a| | |], y as [b| | |]; cbn; try reflexivity. f_equal. lra.
Qed.

(** [x < y] holds exactly when both are finite and ordered, or one is an
    infinity on the right side. *)
Lemma nlt_true_fin a y : nlt (Fin a) y = true -> y = PInf \/ exists b, y = Fin b /\ a < b.
Proof.
  destruct y as [b| | |]; cbn; try discriminate; auto.
  intros H. right. exists b. split; [reflexivity|].
  destruct (Rltb_spec a b); [assumption | discriminate].
Qed.

Lemma nadd_assoc x y z : nadd (nadd x y) z = nadd x (nadd y z).
Proof.
  destruct x as [a| | |], y as [b| | |], z as [c| | |]; cbn; try reflexivity.
  f_equal. lra.
Qed.

(** ** [Math.atan2] gives the polar angle

    For a point [(x, y)] other than the origin, [Ratan2 y x] is an angle
    whose cosine and sine, scaled by the norm, give back [x] and [y]. *)

Lemma sqrt_atan_scale (x y : R) :
  x <> 0 -> sqrt (1 + (y / x)²) * Rabs x = sqrt (x * x + y * y).
Proof.
  intros Hx. symmetry. apply sqrt_lem_1; [apply sumsq_nonneg | |].
  - apply Rmult_le_pos; [apply sqrt_pos | apply Rabs_pos].
  - assert (Hs : sqrt (1 + (y / x)²) * sqrt (1 + (y / x)²) = 1 + (y / x)²).
    { apply sqrt_sqrt. pose proof (Rle_0_sqr (y / x)). lra. }
    assert (Ha : Rabs x * Rabs x = x * x).
    { rewrite <- Rabs_mult. apply Rabs_pos_eq, Rle_0_sqr. }
    transitivity ((sqrt (1 + (y / x)²) * sqrt (1 + (y / x)²)) * (Rabs x * Rabs x)); [ring|].
    rewrite Hs, Ha. unfold Rsqr. field. exact Hx.
Qed.

Lemma sqrt_atan_pos (t : R) : 0 < sqrt (1 + t²).
Proof. apply sqrt_lt_R0. pose proof (Rle_0_sqr t). lra. Qed.

Lemma Ratan2_polar (y x : R) :
  x <> 0 \/ y <> 0 ->
  cos (Ratan2 y x) * sqrt (x * x + y * y) = x /\ sin (Ratan2 y x) * sqrt (x * x + y * y) = y.
Proof.
  intros Hxy. unfold Ratan2.
  destruct (Req_dec_T x 0) as [->|Hx].
  - assert (Hy : y <> 0) by tauto. rewrite Rltb_false by lra.
    replace (0 * 0 + y * y) with (y * y) by ring. case_R.
    + rewrite cos_PI2, sin_PI2, sqrt_square by lra. split; ring.
    + rewrite Rltb_true by lra. rewrite cos_neg, sin_neg, cos_PI2, sin_PI2.
      replace (y * y) with (- y * - y) by ring. rewrite sqrt_square by lra. split; ring.
  - pose proof (sqrt_atan_scale x y Hx) as Hs. pose proof (sqrt_atan_pos (y / x)) as Hp.
    rewrite <- Hs. case_R.
    + rewrite Rabs_pos_eq, cos_atan, sin_atan by lra. split; field; lra.
    + rewrite Rabs_left in * by lra. rewrite Rltb_true by lra.
      case_R; rewrite ?cos_minus, ?sin_minus, ?neg_cos, ?neg_sin, ?cos_PI, ?sin_PI,
        cos_atan, sin_atan; split; field; lra.
Qed.

(** [Ratan2] inverts [(cos a, sin a)] on [(-PI, PI]]. *)

Lemma tan_shift (a : R) : cos a <> 0 -> sin a / cos a = tan (a + PI).
Proof. intros H. unfold tan. rewrite neg_sin, neg_cos. field. exact H. Qed.

Lemma Ratan2_angle (a : R) : - PI < a <= PI -> Ratan2 (sin a) (cos a) = a.
Proof.
  intros Ha. pose proof PI_RGT_0 as HP. unfold Ratan2.
  destruct (Rlt_or_le a (- (PI / 2))) as [A|A];
    [|destruct (Rle_lt_or_eq_dec _ _ A) as [B|B];
      [destruct (Rlt_or_le a (PI / 2)) as [C|C];
        [|destruct (Rle_lt_or_eq_dec _ _ C) as [D|D]] |]].
  - (* -PI < a < -PI/2 *)
    assert (Hc : 0 < cos (a + PI)) by (apply cos_gt_0; lra). rewrite neg_cos in Hc.
    assert (Hs : sin a < 0) by (apply sin_lt_0_var; lra).
    solve_R.
    rewrite tan_shift, atan_tan by lra. ring.
  - (* -PI/2 < a < PI/2 *)
    assert (Hc : 0 < cos a) by (apply cos_gt_0; lra). solve_R.
    apply atan_tan. lra.
  - (* PI/2 < a <= PI *)
    assert (Hc : cos a < 0) by (apply cos_lt_0; lra).
    assert (Hs : 0 <= sin a) by (apply sin_ge_0; lra).
    solve_R.
    pose proof (neg_sin (a - PI)) as Es. pose proof (neg_cos (a - PI)) as Ec.
    replace (a - PI + PI) with a in Es, Ec by ring.
    replace (sin a / cos a) with (tan (a - PI)) by (unfold tan; rewrite Es, Ec; field; lra).
    rewrite atan_tan by lra. ring.
  - (* a = PI/2 *)
    subst a. rewrite cos_PI2, sin_PI2. solve_R. reflexivity.
  - (* a = -PI/2 *)
    subst a. rewrite cos_neg, sin_neg, cos_PI2, sin_PI2.
    solve_R. reflexivity.
Qed.

