(* ===== verification/Boid.v ===== *)
(** * Agents, constants and the world state

    The agent objects built by [newBoid] ([src/script.js] 240-251), the
    constants of the script (lines 8-21), the host values the script reads
    ([window.innerWidth], [window.innerHeight], [Math.random]) as the
    interfaces [Screen] and [Rng], and the global state: the array
    [boids], [lastTime], and the number of random draws made so far.

    Every agent object is created by its own [newBoid] call and stored in
    exactly one slot of [boids], so no two slots alias: the array is
    modelled as a list of records, and a write through [boid0] or
    [boid1] is a write to the slot it was read from. *)

From S2P Require Import Prelude JSNum.

Open Scope num_scope.

(** The colour string ["hsl(" + hue + ", 100%, 50%)"] is only drawn; it is
    kept as its hue. *)
Inductive css_color : Type := hsl (hue : num).

Record boid : Type := mkBoid {
  x : num;
  y : num;
  wanderAngle : num;
  angle : num;
  speed : num;
  size : num;
  color : css_color
}.

Definition set_x (b : boid) (v : num) : boid :=
  mkBoid v (y b) (wanderAngle b) (angle b) (speed b) (size b) (color b).
Definition set_y (b : boid) (v : num) : boid :=
  mkBoid (x b) v (wanderAngle b) (angle b) (speed b) (size b) (color b).
Definition set_wanderAngle (b : boid) (v : num) : boid :=
  mkBoid (x b) (y b) v (angle b) (speed b) (size b) (color b).
Definition set_angle (b : boid) (v : num) : boid :=
  mkBoid (x b) (y b) (wanderAngle b) v (speed b) (size b) (color b).

(** ** Constants (lines 8-21) *)

Definition boidAmount : nat := 10.
Definition maxBoidAmount : nat := 500.
Definition boidMinSize : num := Fin 2.
Definition boidMaxSize : num := Fin 10.
Definition boidWanderRadius : num := Fin 6.
Definition boidWanderSpeed : num := Fin 40.
Definition boidSightRange : num := Fin 150.
Definition boidSoftBoundFactor : num := boidMaxSize + boidMinSize.
Definition boidAlignmentFactor : num := Fin 0.01.
Definition boidCohesionFactor : num := Fin 0.02.
Definition boidSeperationFactor : num := Fin 80.
Definition boidSeperationDistance : num := Fin 200.

Lemma boidSoftBoundFactor_val : boidSoftBoundFactor = Fin 12.
Proof. unfold boidSoftBoundFactor. cbn. f_equal. lra. Qed.

(** ** Host interfaces *)

(** [window.innerWidth] and [window.innerHeight], read once at start-up
    (lines 4-5); [init] copies them into [canvas.width] and
    [canvas.height] (lines 33-34), which [newBoid] reads. *)
Class Screen : Type := {
  innerWidth : R;
  innerHeight : R
}.

Definition width `{Screen} : num := Fin innerWidth.
Definition height `{Screen} : num := Fin innerHeight.

(** [Math.random()]: the [k]-th call returns [rng_draw k], a uniform
    value in [[0, 1)]. *)
Class Rng : Type := {
  rng_draw : nat -> R;
  rng_range : forall k, (0 <= rng_draw k < 1)%R
}.

(** ** The global state *)

Record world : Type := mkWorld {
  boids : list boid;
  lastTime : num;
  draws : nat
}.

Definition set_boids (w : world) (bs : list boid) : world :=
  mkWorld bs (lastTime w) (draws w).
Definition set_lastTime (w : world) (t : num) : world :=
  mkWorld (boids w) t (draws w).

(** Simplify record projections of setters, and nothing else. *)
Ltac boid_simpl :=
  cbn [x y wanderAngle angle speed size color set_x set_y set_wanderAngle set_angle
       boids lastTime draws set_boids set_lastTime fst snd].
Ltac case_ifs := case_ifs_with boid_simpl.

Section Host.
Context `{Screen} `{Rng}.

Definition random : ST world num :=
  fun w => Some (Fin (rng_draw (draws w)), mkWorld (boids w) (lastTime w) (S (draws w))).

(** [newBoid()] (lines 240-251): the fields are evaluated in the order
    of the object literal, one random draw each. *)
Definition newBoid : ST world boid :=
  do r0 <- random; do r1 <- random; do r2 <- random; do r3 <- random;
  do r4 <- random; do r5 <- random; do r6 <- random;
  st_ret {| x := r0 * width;
            y := r1 * height;
            wanderAngle := r2 * nPI * Fin 2;
            angle := r3 * nPI * Fin 2;
            speed := r4 * Fin 20 + Fin 200;
            size := r5 * (boidMaxSize - boidMinSize) + boidMinSize;
            color := hsl (r6 * Fin 360) |}.
End Host.

(** ** Reading and writing the array *)

(** [boids[i]] followed by a property read: [undefined] throws. *)
Definition get_boid (i : nat) : ST world boid :=
  do w <- st_get; st_lift (boids w !! i).

Definition set_boid (i : nat) (b : boid) : ST world unit :=
  st_modify (fun w => set_boids w (<[i := b]> (boids w))).

(** ** The shape invariant of an agent

    [size] and [speed] are finite, drawn once by [newBoid] and never
    written again: [size] in [[boidMinSize, boidMaxSize)], [speed] in
    [[200, 220)]. *)

Definition boid_ok (b : boid) : Prop :=
  exists s v, size b = Fin s /\ (2 <= s < 10)%R /\ speed b = Fin v /\ (200 <= v < 220)%R.

(** [b'] has the same size, speed and colour as [b]: the fields the
    script never writes after creation. *)
Definition same_shape (b b' : boid) : Prop :=
  size b' = size b /\ speed b' = speed b /\ color b' = color b.

Lemma same_shape_refl b : same_shape b b.
Proof. repeat split. Qed.

Lemma same_shape_trans b1 b2 b3 : same_shape b1 b2 -> same_shape b2 b3 -> same_shape b1 b3.
Proof. unfold same_shape. intros (? & ? & ?) (? & ? & ?). repeat split; congruence. Qed.

Lemma boid_ok_shape b b' : same_shape b b' -> boid_ok b -> boid_ok b'.
Proof. intros (Hs & Hv & _) (s & v & ? & ? & ? & ?). exists s, v. rewrite Hs, Hv. auto. Qed.

#[export] Hint Resolve same_shape_refl : fireflies.

(** ** Running the array accessors *)

Lemma get_boid_some i w b : boids w !! i = Some b -> get_boid i w = Some (b, w).
Proof. intros E. unfold get_boid, st_bind, st_get, st_lift. rewrite E. reflexivity. Qed.

Lemma get_boid_none i w : boids w !! i = None -> get_boid i w = None.
Proof. intros E. unfold get_boid, st_bind, st_get, st_lift. rewrite E. reflexivity. Qed.

Lemma set_boid_run i b w : set_boid i b w = Some (tt, set_boids w (<[i := b]> (boids w))).
Proof. reflexivity. Qed.

Lemma set_boids_twice w bs bs' : set_boids (set_boids w bs) bs' = set_boids w bs'.
Proof. reflexivity. Qed.

(** ** Frame locality *)

(** What a step on agent [index] may do to the array: keep its length,
    leave the agents before [index] alone and keep every agent's shape. *)
Definition frame_local (index : nat) (w w' : world) : Prop :=
  length (boids w') = length (boids w) /\ lastTime w' = lastTime w
  /\ (forall j, (j < index)%nat -> boids w' !! j = boids w !! j)
  /\ (forall j b, boids w !! j = Some b -> exists b', boids w' !! j = Some b' /\ same_shape b b').

Lemma frame_local_refl i w : frame_local i w w.
Proof. repeat split; eauto with fireflies. Qed.

Lemma frame_local_trans i w1 w2 w3 :
  frame_local i w1 w2 -> frame_local i w2 w3 -> frame_local i w1 w3.
Proof.
  intros (L1 & T1 & P1 & S1) (L2 & T2 & P2 & S2). repeat split; try congruence.
  - intros j Hj. rewrite P2, P1 by exact Hj. reflexivity.
  - intros j b Eb. destruct (S1 j b Eb) as (b1 & E1 & H1). destruct (S2 j b1 E1) as (b2 & E2 & H2).
    exists b2. split; [exact E2 | eapply same_shape_trans; eassumption].
Qed.

Lemma frame_local_set i w b b' :
  boids w !! i = Some b -> same_shape b b' ->
  frame_local i w (set_boids w (<[i := b']> (boids w))).
Proof.
  intros Eb Sb. unfold frame_local. boid_simpl. repeat split.
  - apply length_insert.
  - intros j Hj. apply list_lookup_insert_ne. lia.
  - intros j c Ec. destruct (decide (j = i)) as [->|Hne].
    + exists b'. rewrite list_lookup_insert_eq by (eapply lookup_lt_Some; eauto).
      split; [reflexivity | congruence].
    + exists c. rewrite list_lookup_insert_ne by congruence. auto with fireflies.
Qed.

Lemma frame_local_draws i w n : frame_local i w (mkWorld (boids w) (lastTime w) n).
Proof. repeat split; eauto with fireflies. Qed.

Lemma frame_local_weaken i k w w' :
  (i <= k)%nat -> frame_local k w w' -> frame_local i w w'.
Proof. intros Hik (L & T & P & Sh). repeat split; auto. intros j Hj. apply P. lia. Qed.

(** A step local to [index] keeps the agents before it. *)
Lemma frame_local_take i w w' :
  frame_local i w w' -> take i (boids w') = take i (boids w).
Proof.
  intros (_ & _ & P & _). apply list_eq. intros j. destruct (decide (j < i)%nat).
  - rewrite !lookup_take_lt by lia. auto.
  - rewrite !lookup_take_ge by lia. reflexivity.
Qed.

(** The agent at [j] after a local step has the shape of the one before. *)
Lemma frame_local_at i w w' j b b' :
  frame_local i w w' -> boids w !! j = Some b -> boids w' !! j = Some b' -> same_shape b b'.
Proof.
  intros (_ & _ & _ & Sh) Eb Eb'. destruct (Sh j b Eb) as (c & Ec & Sc). congruence.
Qed.

(** A local step keeps every agent of the right shape. *)
Lemma frame_local_ok i w w' :
  frame_local i w w' -> Forall boid_ok (boids w) -> Forall boid_ok (boids w').
Proof.
  intros F Hok. pose proof F as (L & _). apply Forall_lookup_2. intros j b' Eb'.
  assert (Hj : (j < length (boids w))%nat) by (rewrite <- L; eapply lookup_lt_Some; exact Eb').
  destruct (lookup_lt_is_Some_2 _ _ Hj) as [b Eb].
  apply (boid_ok_shape b); [exact (frame_local_at _ _ _ _ _ _ F Eb Eb') | exact (Forall_lookup_1 _ _ _ _ Hok Eb)].
Qed.

#[export] Hint Resolve frame_local_refl frame_local_draws : fireflies.

Section NewBoidFacts.
Context `{Screen} `{Rng}.

(** [newBoid] draws seven random numbers, leaves the rest of the state
    alone and returns an agent of the right shape. *)
Lemma newBoid_run (w : world) :
  exists b, newBoid w = Some (b, mkWorld (boids w) (lastTime w) (7 + draws w)) /\ boid_ok b.
Proof.
  unfold newBoid, random, st_bind, st_ret. cbn.
  eexists; split; [reflexivity|].
  pose proof (rng_range (4 + draws w)) as Hs. pose proof (rng_range (5 + draws w)) as Hz.
  cbn in Hs, Hz.
  do 2 eexists. split; [reflexivity|]. split; [lra|]. split; [reflexivity|]. lra.
Qed.
End NewBoidFacts.

(** ** A concrete host, for evaluating the model on small inputs

    An 800x600 window and a random source that always answers 1/2. *)

(** An agent at [(px, py)] of size [s], heading 0, speed 200. *)
Definition agentAt (px py s : R) : boid :=
  mkBoid (Fin px) (Fin py) (Fin 0) (Fin 0) (Fin 200) (Fin s) (hsl (Fin 0)).

Definition demoScreen : Screen := {| innerWidth := 800; innerHeight := 600 |}.

Lemma half_in_unit (k : nat) : (0 <= 1 / 2 < 1)%R.
Proof. lra. Qed.

Definition halfRng : Rng := {| rng_draw := fun _ => (1 / 2)%R; rng_range := half_in_unit |}.

Section NewBoidTheorems.
Context `{Screen} `{Rng}.

(** C20. The agents of [newBoid] (lines 240-251) are well formed: every
    field is a finite number, [x] in [[0, width)] and [y] in
    [[0, height)], both angles in [[0, 2 PI)], [speed] in [[200, 220)],
    [size] in [[2, 10)] and the hue in [[0, 360)]; the call makes exactly
    seven draws and changes nothing else. *)
Theorem newBoid_wellformed (w : world) :
  (0 < innerWidth)%R -> (0 < innerHeight)%R ->
  exists b, newBoid w = Some (b, mkWorld (boids w) (lastTime w) (7 + draws w))
    /\ exists px py wa a v s h,
         b = mkBoid (Fin px) (Fin py) (Fin wa) (Fin a) (Fin v) (Fin s) (hsl (Fin h))
         /\ (0 <= px < innerWidth)%R /\ (0 <= py < innerHeight)%R
         /\ (0 <= wa < 2 * PI)%R /\ (0 <= a < 2 * PI)%R
         /\ (200 <= v < 220)%R /\ (2 <= s < 10)%R /\ (0 <= h < 360)%R.
Proof.
  intros HW HH. pose proof PI_RGT_0 as HP.
  unfold newBoid, random, st_bind, st_ret, width, height, boidMaxSize, boidMinSize, nPI. cbn.
  eexists; split; [reflexivity|].
  pose proof (rng_range (draws w)) as R0.
  pose proof (rng_range (1 + draws w)) as R1. pose proof (rng_range (2 + draws w)) as R2.
  pose proof (rng_range (3 + draws w)) as R3. pose proof (rng_range (4 + draws w)) as R4.
  pose proof (rng_range (5 + draws w)) as R5. pose proof (rng_range (6 + draws w)) as R6.
  cbn in R1, R2, R3, R4, R5, R6.
  do 7 eexists. split; [reflexivity|]. repeat split; nra.
Qed.
End NewBoidTheorems.

Lemma newBoid_wellformed_witness :
  exists b, @newBoid demoScreen halfRng (mkWorld [] (Fin 0) 0) = Some (b, mkWorld [] (Fin 0) 7)
    /\ exists px py wa a v s h,
         b = mkBoid (Fin px) (Fin py) (Fin wa) (Fin a) (Fin v) (Fin s) (hsl (Fin h))
         /\ (0 <= px < 800)%R /\ (0 <= py < 600)%R
         /\ (0 <= wa < 2 * PI)%R /\ (0 <= a < 2 * PI)%R
         /\ (200 <= v < 220)%R /\ (2 <= s < 10)%R /\ (0 <= h < 360)%R.
Proof. apply (@newBoid_wellformed demoScreen halfRng); cbn; lra. Defined.
