(* ===== verification/Population.v ===== *)
(** * Frame timing and the population controller

    Lines 47-60 of [loop] in [src/script.js]: the clock is read, the frame
    duration is capped at 20 ms, an FPS estimate is taken as its inverse,
    one agent is appended when the estimate exceeds 60 (and the array holds
    fewer than [maxBoidAmount]), and the last agent is removed when it is
    below 50.

    Theorems: the population stays within [maxBoidAmount] and moves by at
    most one agent per frame; removing from an empty array is harmless;
    and, because of the 20 ms cap, the estimate never drops below 50 while
    the clock runs forward, so the removal branch never fires and the
    population never shrinks. *)

From S2P Require Import Prelude JSNum Boid.

Open Scope num_scope.

(** ** Definitions *)

(** [deltaTime] (lines 48-49), from the current and the previous
    timestamp, in seconds. *)
Definition deltaTimeOf (time last : num) : num :=
  nmin (time - last) (Fin 20) / Fin 1000.

(** [fps] (line 52). *)
Definition fpsOf (deltaTime : num) : num := Fin 1 / deltaTime.

(** The growth test of line 54 and the shrink test of line 58. *)
Definition growTest (fps : num) (population : nat) : bool :=
  (fps >? Fin 60) && (population <? maxBoidAmount)%nat.
Definition shrinkTest (fps : num) : bool := fps <? Fin 50.

Section Controller.
Context `{Screen} `{Rng}.

(** Lines 47-60: returns [deltaTime] for the rest of the frame. *)
Definition loopHead (time : num) : ST world num :=
  do w <- st_get;
  let deltaTime := deltaTimeOf time (lastTime w) in
  do st_put (set_lastTime w time);
  let fps := fpsOf deltaTime in
  do (do w1 <- st_get;
      if growTest fps (length (boids w1))
      then (do b <- newBoid; st_modify (fun w2 => set_boids w2 (js_push (boids w2) b)))
      else st_ret tt);
  do (if shrinkTest fps
      then st_modify (fun w2 => set_boids w2 (js_pop (boids w2)))
      else st_ret tt);
  st_ret deltaTime.
End Controller.

(** ** The FPS estimate *)

(** The two thresholds exclude each other: at most one of push and pop
    runs in a frame. *)
Lemma grow_not_shrink fps n : growTest fps n = true -> shrinkTest fps = false.
Proof.
  unfold growTest, shrinkTest, ngt. destruct fps as [f| | |]; cbn; try discriminate; auto.
  intros G. apply andb_prop in G as [G _].
  destruct (Rltb_spec 60 f); [|discriminate]. apply Rltb_false. lra.
Qed.

(** With the clock running forward, the capped frame duration lies in
    [[0, 0.02]] seconds. *)
Lemma deltaTimeOf_range t l :
  (l <= t)%R -> exists d, deltaTimeOf (Fin t) (Fin l) = Fin d /\ (0 <= d <= 0.02)%R.
Proof.
  intros Hle. unfold deltaTimeOf. autorewrite with fireflies_rw.
  eexists; split; [reflexivity|].
  unfold Rmin. destruct (Rle_dec (t - l) 20); lra.
Qed.

(** The estimate is [+Infinity] (two frames at the same timestamp) or at
    least 50: the 20 ms cap bounds it from below. *)
Lemma fpsOf_ge_50 d :
  (0 <= d <= 0.02)%R -> fpsOf (Fin d) = PInf \/ exists f, fpsOf (Fin d) = Fin f /\ (50 <= f)%R.
Proof.
  intros Hd. unfold fpsOf. destruct (Req_dec_T d 0) as [->|Hne].
  - left. apply ndiv_pos_zero. lra.
  - right. rewrite ndiv_fin by exact Hne. eexists; split; [reflexivity|].
    apply (Rmult_le_reg_r d); [lra|]. unfold Rdiv. rewrite Rmult_assoc, Rinv_l by exact Hne.
    lra.
Qed.

Lemma shrinkTest_forward_clock t l :
  (l <= t)%R -> shrinkTest (fpsOf (deltaTimeOf (Fin t) (Fin l))) = false.
Proof.
  intros Hle. destruct (deltaTimeOf_range t l Hle) as [d [-> Hd]].
  unfold shrinkTest. destruct (fpsOf_ge_50 d Hd) as [-> | [f [-> Hf]]]; [reflexivity|].
  cbn. apply Rltb_false. lra.
Qed.

(** ** One run of the controller *)

Section ControllerFacts.
Context `{Screen} `{Rng}.

(** The whole behaviour of lines 47-60 on any input: [lastTime] takes
    the new timestamp, an agent of the right shape is appended when the
    growth test holds, and the tail is removed when the shrink test
    holds. *)
Lemma loopHead_run (time : num) (w : world) :
  let fps := fpsOf (deltaTimeOf time (lastTime w)) in
  exists b w', loopHead time w = Some (deltaTimeOf time (lastTime w), w')
    /\ boid_ok b
    /\ lastTime w' = time
    /\ boids w' =
         (let grown := if growTest fps (length (boids w)) then js_push (boids w) b
                       else boids w in
          if shrinkTest fps then js_pop grown else grown).
Proof.
  cbv zeta. destruct (newBoid_run (set_lastTime w time)) as [b [Hb Hok]].
  exists b. unfold loopHead, st_bind, st_get, st_put, st_ret.
  cbn [boids set_lastTime lastTime].
  destruct (growTest _ _); [rewrite Hb|];
    destruct (shrinkTest _); cbn; eexists; repeat split; eauto.
Qed.
End ControllerFacts.

Lemma growTest_lt fps n : growTest fps n = true -> (n < maxBoidAmount)%nat.
Proof. unfold growTest. intros G. apply andb_prop in G as [_ G]. by apply Nat.ltb_lt. Qed.

(** Frames less than [1000 / 60] ms apart pass the FPS half of the
    growth test of line 54 (two frames at the same timestamp give an
    infinite estimate). *)
Lemma growTest_fast (t l : R) (n : nat) :
  (l <= t < l + 50 / 3)%R ->
  growTest (fpsOf (deltaTimeOf (Fin t) (Fin l))) n = (n <? maxBoidAmount)%nat.
Proof.
  intros Ht. unfold growTest, deltaTimeOf, ngt. autorewrite with fireflies_rw.
  replace (Rmin (t - l) 20) with (t - l)%R by (unfold Rmin; destruct (Rle_dec _ _); lra).
  unfold fpsOf. destruct (Req_dec_T t l) as [->|Hne].
  - rewrite Rminus_diag, Rdiv_0_l, ndiv_pos_zero by lra. reflexivity.
  - assert (Hd : (0 < (t - l) / 1000)%R) by (apply Rdiv_lt_0_compat; lra).
    rewrite ndiv_fin by lra. cbn. rewrite Rltb_true; [reflexivity|].
    apply (Rmult_lt_reg_r ((t - l) / 1000)); [exact Hd|].
    unfold Rdiv at 2. rewrite Rmult_1_l, Rinv_l by lra. lra.
Qed.

Section ControllerTheorems.
Context `{Screen} `{Rng}.

(** C5. Population bound: one run of the controller keeps the array
    within [maxBoidAmount] agents and changes its length by at most
    one, whatever the clock reads. *)
Theorem loopHead_population_bound (time : num) (w : world) :
  (length (boids w) <= maxBoidAmount)%nat ->
  exists dt w', loopHead time w = Some (dt, w')
    /\ (length (boids w') <= maxBoidAmount)%nat
    /\ (length (boids w') <= S (length (boids w)))%nat
    /\ (length (boids w) <= S (length (boids w')))%nat.
Proof.
  intros Hle. destruct (loopHead_run time w) as (b & w' & Hrun & _ & _ & Hbs).
  exists (deltaTimeOf time (lastTime w)), w'. split; [exact Hrun|]. rewrite Hbs. cbv zeta.
  destruct (growTest _ _) eqn:G.
  - apply growTest_lt in G as Hlt. rewrite (grow_not_shrink _ _ G).
    rewrite length_js_push. lia.
  - destruct (shrinkTest _); rewrite ?length_js_pop; lia.
Qed.

(** C6. While the clock runs forward the controller never removes an
    agent: the 20 ms cap keeps the FPS estimate at 50 or above, so the
    test [fps < 50] of line 58 is never true.  The array is unchanged
    or gains one agent of the right shape at its tail. *)
Theorem loopHead_never_shrinks (t l : R) (w : world) :
  lastTime w = Fin l -> (l <= t)%R ->
  exists w', loopHead (Fin t) w = Some (deltaTimeOf (Fin t) (Fin l), w')
    /\ lastTime w' = Fin t
    /\ (boids w' = boids w \/ exists b, boid_ok b /\ boids w' = js_push (boids w) b).
Proof.
  intros Hl Hle. destruct (loopHead_run (Fin t) w) as (b & w' & Hrun & Hok & Ht & Hbs).
  rewrite Hl in Hrun, Hbs. rewrite (shrinkTest_forward_clock t l Hle) in Hbs.
  exists w'. split; [exact Hrun|]. split; [exact Ht|].
  destruct (growTest _ _); [right; eauto | left; exact Hbs].
Qed.

(** C28. The shrink path: when the clock goes backwards the estimate is
    negative and the tail agent is removed; on an empty array [pop]
    leaves it empty and nothing throws. *)
Theorem loopHead_backwards_pops (t l : R) (w : world) :
  lastTime w = Fin l -> (t < l)%R ->
  exists w', loopHead (Fin t) w = Some (deltaTimeOf (Fin t) (Fin l), w')
    /\ boids w' = js_pop (boids w).
Proof.
  intros Hl Hlt. destruct (loopHead_run (Fin t) w) as (b & w' & Hrun & _ & _ & Hbs).
  rewrite Hl in Hrun, Hbs. exists w'. split; [exact Hrun|]. rewrite Hbs.
  assert (Hd : deltaTimeOf (Fin t) (Fin l) = Fin ((t - l) / 1000)).
  { unfold deltaTimeOf. autorewrite with fireflies_rw. f_equal. f_equal.
    unfold Rmin. destruct (Rle_dec (t - l) 20); lra. }
  assert (Hd0 : ((t - l) / 1000 < 0)%R) by (apply Rdiv_neg_pos; lra).
  assert (Hf : fpsOf (Fin ((t - l) / 1000)) = Fin (1 / ((t - l) / 1000))).
  { unfold fpsOf. apply ndiv_fin. lra. }
  assert (Hneg : (1 / ((t - l) / 1000) < 0)%R).
  { unfold Rdiv at 1. rewrite Rmult_1_l. apply Rinv_lt_0_compat. exact Hd0. }
  rewrite Hd, Hf. unfold growTest, shrinkTest, ngt. cbn.
  rewrite (Rltb_false 60), (Rltb_true _ 50) by lra. reflexivity.
Qed.
End ControllerTheorems.

(** ** Witnesses on the demo host *)

Lemma loopHead_population_bound_witness :
  exists dt w', @loopHead demoScreen halfRng (Fin 16) (mkWorld [] (Fin 0) 0) = Some (dt, w')
    /\ (length (boids w') <= maxBoidAmount)%nat
    /\ (length (boids w') <= S 0)%nat /\ (0 <= S (length (boids w')))%nat.
Proof. apply (@loopHead_population_bound demoScreen halfRng). cbn. lia. Defined.

Lemma loopHead_never_shrinks_witness :
  exists w', @loopHead demoScreen halfRng (Fin 16) (mkWorld [] (Fin 0) 0)
               = Some (deltaTimeOf (Fin 16) (Fin 0), w')
    /\ lastTime w' = Fin 16
    /\ (boids w' = [] \/ exists b, boid_ok b /\ boids w' = js_push [] b).
Proof. apply (@loopHead_never_shrinks demoScreen halfRng 16 0); [reflexivity | lra]. Defined.

Lemma loopHead_backwards_pops_witness :
  exists w', @loopHead demoScreen halfRng (Fin 50) (mkWorld [] (Fin 100) 0)
               = Some (deltaTimeOf (Fin 50) (Fin 100), w')
    /\ boids w' = js_pop [].
Proof. apply (@loopHead_backwards_pops demoScreen halfRng 50 100); [reflexivity | lra]. Defined.
