(* ===== verification/Collisions.v ===== *)
(** * The collision resolver

    [applyCollisions(index)] ([src/script.js] 168-192): agent [index] is
    compared with every later agent [i > index]; an overlapping pair is
    pushed apart along the line between their centres, each by half the
    overlap; then agent [index] is clamped into the canvas.

    [collidePair] is the body of the loop on two agent values, [clampBoid]
    the four [if]s of lines 188-191, [collideStep] one iteration on the
    array and [applyCollisions] the whole function.  [collideAt] is the
    same iteration as a function on the list, used to describe the loop as
    a fold; the section [CollidePreserves] carries any relation that
    [collidePair] respects (same shape, same heading) across that fold.

    Theorems: an overlapping pair ends exactly touching with its midpoint
    kept; coincident agents get NaN coordinates, which the clamp keeps;
    the clamp puts every non-NaN coordinate into the canvas;
    [applyCollisions] never touches agents before [index], keeps the shape
    of every agent, and leaves agent [index] inside the canvas or NaN. *)

From S2P Require Import Prelude JSNum Boid.

Open Scope num_scope.

(** ** Definitions *)

(** Lines 172-185 on the current values of [boid0] and [boid1]. *)
Definition collidePair (boid0 boid1 : boid) : boid * boid :=
  let dx := x boid1 - x boid0 in
  let dy := y boid1 - y boid0 in
  let distance := nsqrt (dx * dx + dy * dy) in
  if distance <? size boid0 + size boid1 then
    let overlap := (size boid0 + size boid1 - distance) / Fin 2 in
    let ox := overlap * dx / distance in
    let oy := overlap * dy / distance in
    (set_y (set_x boid0 (x boid0 - ox)) (y boid0 - oy),
     set_y (set_x boid1 (x boid1 + ox)) (y boid1 + oy))
  else (boid0, boid1).

Section Clamp.
Context `{Screen}.

(** Lines 188-191, in order: each test reads the coordinate the previous
    one may have written. *)
Definition clampBoid (boid0 : boid) : boid :=
  let b1 := if x boid0 <? size boid0 then set_x boid0 (size boid0) else boid0 in
  let b2 := if x b1 >? width - size b1 then set_x b1 (width - size b1) else b1 in
  let b3 := if y b2 <? size b2 then set_y b2 (size b2) else b2 in
  if y b3 >? height - size b3 then set_y b3 (height - size b3) else b3.
End Clamp.

(** One iteration of the loop of lines 171-186 on the array. *)
Definition collideStep (index i : nat) : ST world unit :=
  do boid0 <- get_boid index;
  do boid1 <- get_boid i;
  let '(b0', b1') := collidePair boid0 boid1 in
  do set_boid index b0';
  set_boid i b1'.

Section ApplyCollisions.
Context `{Screen}.

(** [applyCollisions(index)]: the loop from [index + 1] while
    [i < boids.length], then the clamp of [boids[index]].  The loop is
    given the array's length as fuel, which [applyCollisions_fold] shows is
    enough. *)
Definition applyCollisions (index : nat) : ST world unit :=
  do w <- st_get;
  do js_for (length (boids w)) (fun w => length (boids w)) (collideStep index) (S index);
  do boid0 <- get_boid index;
  set_boid index (clampBoid boid0).
End ApplyCollisions.

(** The loop iteration as a function on the list. *)
Definition collideAt (index : nat) (bs : list boid) (i : nat) : list boid :=
  match bs !! index, bs !! i with
  | Some b0, Some b1 =>
      let '(b0', b1') := collidePair b0 b1 in <[i := b1']> (<[index := b0']> bs)
  | _, _ => bs
  end.

(** A coordinate inside [[lo, hi]]. *)
Definition coord_in (lo hi : R) (v : num) : Prop :=
  exists r, v = Fin r /\ (lo <= r <= hi)%R.

(** A coordinate that is NaN or inside [[lo, hi]]. *)
Definition nan_or_in (lo hi : R) (v : num) : Prop := v = NaN \/ coord_in lo hi v.

(** ** The pair correction *)

Lemma collidePair_shape b0 b1 :
  same_shape b0 (fst (collidePair b0 b1)) /\ same_shape b1 (snd (collidePair b0 b1)).
Proof.
  unfold collidePair, same_shape. destruct (_ <? _); cbn; repeat split.
Qed.

(** The geometric core: moving two points apart along their axis by
    [overlap * d / distance] each sets their distance to [sum]. *)
Lemma push_apart_distance (x0 y0 x1 y1 sum : R) :
  let d := sqrt ((x1 - x0) * (x1 - x0) + (y1 - y0) * (y1 - y0)) in
  (0 < d)%R -> (0 < sum)%R ->
  let o := ((sum - d) / 2)%R in
  let ox := (o * (x1 - x0) / d)%R in
  let oy := (o * (y1 - y0) / d)%R in
  sqrt ((x1 + ox - (x0 - ox)) * (x1 + ox - (x0 - ox))
        + (y1 + oy - (y0 - oy)) * (y1 + oy - (y0 - oy))) = sum.
Proof.
  intros d Hd Hs o ox oy.
  assert (Hdd : (d * d = (x1 - x0) * (x1 - x0) + (y1 - y0) * (y1 - y0))%R)
    by (unfold d; apply sqrt_sqrt, sumsq_nonneg).
  assert (Ex : (x1 + ox - (x0 - ox) = (x1 - x0) * sum / d)%R) by (unfold ox, o; field; lra).
  assert (Ey : (y1 + oy - (y0 - oy) = (y1 - y0) * sum / d)%R) by (unfold oy, o; field; lra).
  rewrite Ex, Ey.
  replace ((x1 - x0) * sum / d * ((x1 - x0) * sum / d) + (y1 - y0) * sum / d * ((y1 - y0) * sum / d))%R
    with (sum * sum * (((x1 - x0) * (x1 - x0) + (y1 - y0) * (y1 - y0)) / (d * d)))%R
    by (field; lra).
  rewrite <- Hdd. unfold Rdiv. rewrite Rinv_r by (apply Rmult_integral_contrapositive; lra). rewrite Rmult_1_r.
  apply sqrt_square. lra.
Qed.

(** C11. Two overlapping agents ([0 < distance < size0 + size1]) end
    exactly touching: their new distance is the sum of their sizes, and
    each moved by half the overlap, so their midpoint is kept. *)
Theorem collidePair_separates (b0 b1 : boid) (x0 y0 x1 y1 s0 s1 : R) :
  x b0 = Fin x0 -> y b0 = Fin y0 -> x b1 = Fin x1 -> y b1 = Fin y1 ->
  size b0 = Fin s0 -> size b1 = Fin s1 ->
  (0 < sqrt ((x1 - x0) * (x1 - x0) + (y1 - y0) * (y1 - y0)) < s0 + s1)%R ->
  exists x0' y0' x1' y1',
    collidePair b0 b1 = (set_y (set_x b0 (Fin x0')) (Fin y0'),
                         set_y (set_x b1 (Fin x1')) (Fin y1'))
    /\ sqrt ((x1' - x0') * (x1' - x0') + (y1' - y0') * (y1' - y0')) = (s0 + s1)%R
    /\ (x0' + x1' = x0 + x1)%R /\ (y0' + y1' = y0 + y1)%R.
Proof.
  intros Hx0 Hy0 Hx1 Hy1 Hs0 Hs1 Hd.
  unfold collidePair. rewrite Hx0, Hy0, Hx1, Hy1, Hs0, Hs1.
  autorewrite with fireflies_rw. rewrite Rltb_true by lra.
  autorewrite with fireflies_rw.
  do 4 eexists. split; [reflexivity|].
  pose proof (push_apart_distance x0 y0 x1 y1 (s0 + s1)) as P. cbv zeta in P.
  split; [apply P; lra | split; field; lra].
Qed.

(** C26. Two agents at the same point: the distance is 0, which passes
    the overlap test, and [ox = overlap * 0 / 0] is NaN, so both agents
    get NaN coordinates (the script has no guard for this case). *)
Theorem collidePair_coincident_nan (b0 b1 : boid) (x0 y0 s0 s1 : R) :
  x b0 = Fin x0 -> y b0 = Fin y0 -> x b1 = Fin x0 -> y b1 = Fin y0 ->
  size b0 = Fin s0 -> size b1 = Fin s1 -> (0 < s0 + s1)%R ->
  x (fst (collidePair b0 b1)) = NaN /\ y (fst (collidePair b0 b1)) = NaN
  /\ x (snd (collidePair b0 b1)) = NaN /\ y (snd (collidePair b0 b1)) = NaN.
Proof.
  intros Hx0 Hy0 Hx1 Hy1 Hs0 Hs1 Hs.
  unfold collidePair. rewrite Hx0, Hy0, Hx1, Hy1, Hs0, Hs1.
  autorewrite with fireflies_rw.
  replace (x0 - x0)%R with 0%R by ring. replace (y0 - y0)%R with 0%R by ring.
  rewrite Rmult_0_l, Rplus_0_l, sqrt_0, Rltb_true by lra.
  autorewrite with fireflies_rw. rewrite !Rmult_0_r, ndiv_zero_zero.
  cbn. autorewrite with fireflies_rw. repeat split.
Qed.

(** ** The clamp *)

(** One axis of the clamp: lines 188-189 for [x], 190-191 for [y]. *)
Definition clampCoord (v s extent : num) : num :=
  let v1 := if v <? s then s else v in
  if v1 >? extent - s then extent - s else v1.

Lemma clampBoid_x `{Screen} b : x (clampBoid b) = clampCoord (x b) (size b) width.
Proof.
  unfold clampBoid, clampCoord. case_ifs.
Qed.

Lemma clampBoid_y `{Screen} b : y (clampBoid b) = clampCoord (y b) (size b) height.
Proof.
  unfold clampBoid, clampCoord. case_ifs.
Qed.

Lemma clampBoid_shape `{Screen} b : same_shape b (clampBoid b).
Proof.
  unfold clampBoid, same_shape. case_ifs.
Qed.

Lemma clampBoid_angles `{Screen} b :
  angle (clampBoid b) = angle b /\ wanderAngle (clampBoid b) = wanderAngle b.
Proof. unfold clampBoid. case_ifs. Qed.

Lemma clampCoord_nan s e : clampCoord NaN s e = NaN.
Proof. unfold clampCoord, ngt. rewrite nlt_nan_l, nlt_nan_r. reflexivity. Qed.

Lemma clampCoord_in (v : num) (s e : R) :
  v <> NaN -> (2 * s <= e)%R -> coord_in s (e - s) (clampCoord v (Fin s) (Fin e)).
Proof.
  intros Hv He. unfold clampCoord, coord_in, ngt. autorewrite with fireflies_rw.
  destruct v as [r| | |]; cbn; [| | | congruence].
  - case_R; cbn; autorewrite with fireflies_rw; case_R; eexists; split; try reflexivity; lra.
  - eexists; split; [reflexivity | lra].
  - autorewrite with fireflies_rw. case_R; eexists; split; try reflexivity; lra.
Qed.

(** The clamp as a formula: [min hi (max lo v)], with NaN kept. *)
Definition clampRef (v : num) (lo hi : R) : num :=
  match v with
  | Fin r => Fin (Rmin hi (Rmax lo r))
  | PInf => Fin hi
  | NInf => Fin (Rmin hi lo)
  | NaN => NaN
  end.

(** C19. The two sequential tests of one axis of the clamp (lines 188-189
    or 190-191) compute [min (extent - size) (max size v)] on every
    input: for every finite value, both infinities and NaN, and also when
    the agent is wider than the canvas, where the second test wins. *)
Theorem clampCoord_ref (v : num) (s e : R) :
  clampCoord v (Fin s) (Fin e) = clampRef v s (e - s).
Proof.
  unfold clampCoord, clampRef, ngt. autorewrite with fireflies_rw.
  destruct v as [r| | |]; cbn; autorewrite with fireflies_rw; [| | |reflexivity].
  - unfold Rmax, Rmin. case_R; cbn; autorewrite with fireflies_rw; case_R;
      repeat (destruct (Rle_dec _ _)); f_equal; lra.
  - reflexivity.
  - unfold Rmin. case_R; destruct (Rle_dec _ _); f_equal; lra.
Qed.

(** C25. The clamp of lines 188-191 puts every coordinate that is not NaN
    inside the canvas, [[size, width - size]] and [[size, height - size]]
    (when the agent fits, [2 * size <= width, height]); a NaN coordinate
    fails both tests and stays NaN. *)
Theorem clampBoid_in_canvas `{Screen} (b : boid) (s : R) :
  size b = Fin s -> (2 * s <= innerWidth)%R -> (2 * s <= innerHeight)%R ->
  (x b <> NaN -> coord_in s (innerWidth - s) (x (clampBoid b)))
  /\ (y b <> NaN -> coord_in s (innerHeight - s) (y (clampBoid b)))
  /\ (x b = NaN -> x (clampBoid b) = NaN)
  /\ (y b = NaN -> y (clampBoid b) = NaN).
Proof.
  intros Hs Hw Hh. rewrite clampBoid_x, clampBoid_y, Hs. unfold width, height.
  repeat split; intros E; try (apply clampCoord_in; assumption);
    rewrite E; apply clampCoord_nan.
Qed.

(** ** The loop as a fold *)

(** The loop of lines 171-186 over the array [bs], as a fold of
    [collideAt] over the indices [index + 1 .. length - 1]. *)
Definition collideLoop (index : nat) (bs : list boid) : list boid :=
  fold_left (collideAt index) (seq (S index) (length bs - S index)) bs.

Lemma collideStep_length index i w w' :
  collideStep index i w = Some (tt, w') -> length (boids w') = length (boids w).
Proof.
  intros Hr. unfold collideStep in Hr.
  destruct (boids w !! index) as [b0|] eqn:E0;
    [| rewrite st_bind_none in Hr by (apply get_boid_none, E0); discriminate].
  rewrite (st_bind_some _ _ _ _ _ (get_boid_some _ _ _ E0)) in Hr.
  destruct (boids w !! i) as [b1|] eqn:E1;
    [| rewrite st_bind_none in Hr by (apply get_boid_none, E1); discriminate].
  rewrite (st_bind_some _ _ _ _ _ (get_boid_some _ _ _ E1)) in Hr.
  destruct (collidePair b0 b1).
  rewrite (st_bind_some _ _ _ _ _ (set_boid_run _ _ _)), set_boid_run in Hr.
  injection Hr as <-. cbn. rewrite !length_insert. reflexivity.
Qed.

Lemma collideStep_run index i w b0 b1 :
  boids w !! index = Some b0 -> boids w !! i = Some b1 ->
  collideStep index i w = Some (tt, set_boids w (collideAt index (boids w) i)).
Proof.
  intros E0 E1. unfold collideStep. rewrite (st_bind_some _ _ _ _ _ (get_boid_some _ _ _ E0)).
  rewrite (st_bind_some _ _ _ _ _ (get_boid_some _ _ _ E1)).
  unfold collideAt. rewrite E0, E1. destruct (collidePair b0 b1). reflexivity.
Qed.

Lemma collideAt_length index bs i : length (collideAt index bs i) = length bs.
Proof.
  unfold collideAt. destruct (bs !! index), (bs !! i); try reflexivity.
  destruct (collidePair _ _). rewrite !length_insert. reflexivity.
Qed.

Lemma collideAt_lookup_ne index bs i j :
  j <> index -> j <> i -> collideAt index bs i !! j = bs !! j.
Proof.
  intros H0 H1. unfold collideAt. destruct (bs !! index), (bs !! i); try reflexivity.
  destruct (collidePair _ _). rewrite !list_lookup_insert_ne by congruence. reflexivity.
Qed.

Lemma fold_collideAt_length index l bs :
  length (fold_left (collideAt index) l bs) = length bs.
Proof.
  revert bs. induction l as [|i l IH]; intros bs; [reflexivity|].
  cbn. rewrite IH. apply collideAt_length.
Qed.

Lemma fold_collideAt_lookup_lt index l bs j :
  (j < index)%nat -> Forall (fun i => index < i)%nat l ->
  fold_left (collideAt index) l bs !! j = bs !! j.
Proof.
  intros Hj. revert bs. induction l as [|i l IH]; intros bs Hl; [reflexivity|].
  inversion Hl; subst. cbn. rewrite IH by assumption. apply collideAt_lookup_ne; lia.
Qed.

(** Any relation between an agent before and after that [collidePair]
    respects on both sides holds, slot by slot, across the loop. *)
Section CollidePreserves.
Variable P : boid -> boid -> Prop.
Hypothesis P_refl : forall b, P b b.
Hypothesis P_trans : forall b1 b2 b3, P b1 b2 -> P b2 b3 -> P b1 b3.
Hypothesis P_pair : forall b0 b1, P b0 (fst (collidePair b0 b1)) /\ P b1 (snd (collidePair b0 b1)).

Lemma collideAt_pres index bs i j b :
  bs !! j = Some b -> exists b', collideAt index bs i !! j = Some b' /\ P b b'.
Proof.
  intros Ej. unfold collideAt.
  destruct (bs !! index) as [b0|] eqn:E0; [|exists b; auto].
  destruct (bs !! i) as [b1|] eqn:E1; [|exists b; auto].
  pose proof (P_pair b0 b1) as [S0 S1].
  destruct (collidePair b0 b1) as [b0' b1']. cbn in S0, S1.
  destruct (decide (j = i)) as [->|Hi].
  - exists b1'. rewrite list_lookup_insert_eq
      by (rewrite length_insert; eapply lookup_lt_Some; eauto).
    split; [reflexivity | congruence].
  - rewrite list_lookup_insert_ne by congruence.
    destruct (decide (j = index)) as [->|Hx].
    + exists b0'. rewrite list_lookup_insert_eq by (eapply lookup_lt_Some; eauto).
      split; [reflexivity | congruence].
    + exists b. rewrite list_lookup_insert_ne by congruence. auto.
Qed.

Lemma fold_collideAt_pres index l bs j b :
  bs !! j = Some b ->
  exists b', fold_left (collideAt index) l bs !! j = Some b' /\ P b b'.
Proof.
  revert bs b. induction l as [|i l IH]; intros bs b Ej; [eexists; eauto|].
  cbn. destruct (collideAt_pres index bs i j b Ej) as (b1 & E1 & S1).
  destruct (IH _ _ E1) as (b2 & E2 & S2). exists b2. split; [exact E2|]. eauto.
Qed.
End CollidePreserves.

(** The pair correction moves agents and nothing else. *)
Definition same_heading (b b' : boid) : Prop :=
  angle b' = angle b /\ wanderAngle b' = wanderAngle b.

Lemma collidePair_heading b0 b1 :
  same_heading b0 (fst (collidePair b0 b1)) /\ same_heading b1 (snd (collidePair b0 b1)).
Proof. unfold collidePair, same_heading. case_ifs. Qed.

Lemma fold_collideAt_shape index l bs j b :
  bs !! j = Some b ->
  exists b', fold_left (collideAt index) l bs !! j = Some b' /\ same_shape b b'.
Proof.
  apply fold_collideAt_pres; [apply same_shape_refl | apply same_shape_trans | apply collidePair_shape].
Qed.

Lemma fold_collideAt_heading index l bs j b :
  bs !! j = Some b ->
  exists b', fold_left (collideAt index) l bs !! j = Some b' /\ same_heading b b'.
Proof.
  apply fold_collideAt_pres; [| | apply collidePair_heading]; unfold same_heading;
    [auto | intros ??? [] []; split; congruence].
Qed.

Lemma st_iter_collide index l w :
  (index < length (boids w))%nat -> Forall (fun i => i < length (boids w))%nat l ->
  st_iter (collideStep index) l w
  = Some (tt, set_boids w (fold_left (collideAt index) l (boids w))).
Proof.
  revert w. induction l as [|i l IH]; intros w Hidx Hl; [destruct w; reflexivity|].
  inversion Hl as [|? ? Hi Hl']; subst.
  destruct (lookup_lt_is_Some_2 _ _ Hidx) as [b0 E0].
  destruct (lookup_lt_is_Some_2 _ _ Hi) as [b1 E1].
  cbn [st_iter]. rewrite (st_bind_some _ _ _ _ _ (collideStep_run _ _ _ _ _ E0 E1)).
  rewrite IH; cbn; rewrite ?collideAt_length; auto.
Qed.

Section CollisionsRun.
Context `{Screen}.

(** [applyCollisions(index)], for an index inside the array, runs to
    completion without throwing: it is the fold [collideLoop] followed by
    the clamp of agent [index].  This is where the fuel of the loop is shown
    to be enough. *)
Lemma applyCollisions_fold (index : nat) (w : world) :
  (index < length (boids w))%nat ->
  exists b0, collideLoop index (boids w) !! index = Some b0
    /\ applyCollisions index w
       = Some (tt, set_boids w (<[index := clampBoid b0]> (collideLoop index (boids w)))).
Proof.
  intros Hidx. unfold applyCollisions.
  rewrite (st_bind_some _ _ w w w) by reflexivity.
  rewrite (st_bind_some _ _ _ tt (set_boids w (collideLoop index (boids w)))).
  2:{ rewrite js_for_seq; [| intros ???; apply collideStep_length | lia].
      apply st_iter_collide; [exact Hidx|].
      apply Forall_forall. intros i Hi. apply list_elem_of_In, in_seq in Hi. lia. }
  assert (Hlen : (index < length (collideLoop index (boids w)))%nat)
    by (unfold collideLoop; rewrite fold_collideAt_length; exact Hidx).
  destruct (lookup_lt_is_Some_2 _ _ Hlen) as [b0 E0].
  exists b0. split; [exact E0|].
  rewrite (st_bind_some _ _ _ _ _ (get_boid_some index (set_boids w _) b0 E0)). reflexivity.
Qed.
End CollisionsRun.

Lemma seq_after_index index n : Forall (fun i => index < i)%nat (seq (S index) n).
Proof. apply Forall_forall. intros i Hi. apply list_elem_of_In, in_seq in Hi. lia. Qed.

Section CollisionsSpec.
Context `{Screen}.

Lemma clampBoid_nan_or_in (b : boid) (s : R) :
  size b = Fin s -> (2 * s <= innerWidth)%R -> (2 * s <= innerHeight)%R ->
  nan_or_in s (innerWidth - s) (x (clampBoid b)) /\ nan_or_in s (innerHeight - s) (y (clampBoid b)).
Proof.
  intros Hs Hw Hh. rewrite clampBoid_x, clampBoid_y, Hs. unfold width, height, nan_or_in.
  split; [destruct (x b) eqn:E | destruct (y b) eqn:E];
    (left; apply clampCoord_nan) || (right; apply clampCoord_in; [discriminate | assumption]).
Qed.

(** [applyCollisions(index)] on an agent of the array: it runs without
    throwing, is local to [index], draws nothing, and leaves at [index]
    the clamp of an agent of the same shape. *)
Lemma applyCollisions_local (index : nat) (w : world) (b : boid) :
  boids w !! index = Some b ->
  exists w' b1, applyCollisions index w = Some (tt, w') /\ frame_local index w w'
    /\ draws w' = draws w /\ same_shape b b1 /\ same_heading b b1
    /\ boids w' !! index = Some (clampBoid b1).
Proof.
  intros Eb. pose proof (lookup_lt_Some _ _ _ Eb) as Hidx.
  destruct (applyCollisions_fold index w Hidx) as (b0 & E0 & Hrun).
  set (l := seq (S index) (length (boids w) - S index)).
  destruct (fold_collideAt_shape index l (boids w) index b Eb) as (b1 & E1 & S1).
  destruct (fold_collideAt_heading index l (boids w) index b Eb) as (b1' & E1' & H1).
  rewrite E1 in E1'. injection E1' as <-.
  unfold collideLoop in E0, Hrun. fold l in E0, Hrun. rewrite E1 in E0. injection E0 as <-.
  eexists; exists b1. split; [exact Hrun|].
  split; [|split; [reflexivity | split; [exact S1 | split; [exact H1|]]]].
  - unfold frame_local. boid_simpl. repeat split.
    + rewrite length_insert. apply fold_collideAt_length.
    + intros j Hj. rewrite list_lookup_insert_ne by lia.
      apply fold_collideAt_lookup_lt; [lia | apply seq_after_index].
    + intros j c Ec. destruct (fold_collideAt_shape index l (boids w) j c Ec) as (c1 & Ec1 & Sc1).
      destruct (decide (j = index)) as [->|Hne].
      * exists (clampBoid b1). rewrite list_lookup_insert_eq by (eapply lookup_lt_Some; exact E1).
        split; [reflexivity|]. rewrite E1 in Ec1. injection Ec1 as <-.
        eapply same_shape_trans; [exact Sc1 | apply clampBoid_shape].
      * exists c1. rewrite list_lookup_insert_ne by congruence. auto.
  - boid_simpl. apply list_lookup_insert_eq. eapply lookup_lt_Some; exact E1.
Qed.

(** What [applyCollisions(index)] does, as the rest of the frame needs
    it: it runs without throwing, is local to [index], and leaves agent
    [index] inside the canvas on each axis unless NaN. *)
Lemma applyCollisions_spec (index : nat) (w : world) (b : boid) (s : R) :
  boids w !! index = Some b -> size b = Fin s ->
  (2 * s <= innerWidth)%R -> (2 * s <= innerHeight)%R ->
  exists w' b', applyCollisions index w = Some (tt, w') /\ frame_local index w w'
    /\ draws w' = draws w /\ boids w' !! index = Some b'
    /\ nan_or_in s (innerWidth - s) (x b') /\ nan_or_in s (innerHeight - s) (y b').
Proof.
  intros Eb Hs Hw Hh.
  destruct (applyCollisions_local index w b Eb) as (w' & b1 & Hrun & F & D & (S1 & _) & _ & E).
  exists w', (clampBoid b1). do 4 (split; [assumption|]).
  apply clampBoid_nan_or_in; [congruence | assumption..].
Qed.
End CollisionsSpec.

Section CollisionsTheorems.
Context `{Screen}.

(** C12. [applyCollisions(index)] on an index of the array runs without
    throwing, keeps the array's length, never changes the agents before
    [index] (they were already handled this frame), and keeps the size,
    speed and colour of every agent. *)
Theorem applyCollisions_frame_local (index : nat) (w : world) :
  (index < length (boids w))%nat ->
  exists w', applyCollisions index w = Some (tt, w')
    /\ length (boids w') = length (boids w)
    /\ lastTime w' = lastTime w /\ draws w' = draws w
    /\ (forall j, (j < index)%nat -> boids w' !! j = boids w !! j)
    /\ (forall j b, boids w !! j = Some b ->
          exists b', boids w' !! j = Some b' /\ same_shape b b').
Proof.
  intros Hidx. destruct (lookup_lt_is_Some_2 _ _ Hidx) as [b Eb].
  destruct (applyCollisions_local index w b Eb) as (w' & b1 & Hrun & (L & T & P & Sh) & D & _ & _).
  exists w'. repeat (split; [assumption|]). exact Sh.
Qed.

(** C13. After [applyCollisions(index)], agent [index] (of size [s] with
    [2 * s] at most the canvas' width and height) lies inside the canvas
    on each axis, unless that coordinate is NaN. *)
Theorem applyCollisions_clamps (index : nat) (w : world) (b : boid) (s : R) :
  boids w !! index = Some b -> size b = Fin s ->
  (2 * s <= innerWidth)%R -> (2 * s <= innerHeight)%R ->
  exists w' b', applyCollisions index w = Some (tt, w')
    /\ boids w' !! index = Some b' /\ same_shape b b'
    /\ nan_or_in s (innerWidth - s) (x b')
    /\ nan_or_in s (innerHeight - s) (y b').
Proof.
  intros Eb Hs Hw Hh.
  destruct (applyCollisions_spec index w b s Eb Hs Hw Hh) as (w' & b' & Hrun & (_ & _ & _ & Sh) & _ & Eb' & Hx & Hy).
  exists w', b'. split; [exact Hrun|]. split; [exact Eb'|]. split; [|split; assumption].
  destruct (Sh index b Eb) as (b'' & E'' & S''). rewrite Eb' in E''. injection E'' as <-. exact S''.
Qed.
End CollisionsTheorems.

(** ** Witnesses on concrete agents *)

Lemma sqrt_6_sq : sqrt ((6 - 0) * (6 - 0) + (0 - 0) * (0 - 0)) = 6%R.
Proof. apply sqrt_axis. lra. Qed.

Lemma collidePair_separates_witness :
  exists x0' y0' x1' y1',
    collidePair (agentAt 0 0 5) (agentAt 6 0 5)
    = (set_y (set_x (agentAt 0 0 5) (Fin x0')) (Fin y0'),
       set_y (set_x (agentAt 6 0 5) (Fin x1')) (Fin y1'))
    /\ sqrt ((x1' - x0') * (x1' - x0') + (y1' - y0') * (y1' - y0')) = (5 + 5)%R
    /\ (x0' + x1' = 0 + 6)%R /\ (y0' + y1' = 0 + 0)%R.
Proof.
  apply (collidePair_separates _ _ 0 0 6 0 5 5); try reflexivity.
  rewrite sqrt_6_sq. lra.
Defined.

Lemma collidePair_coincident_nan_witness :
  let p := collidePair (agentAt 3 4 5) (agentAt 3 4 2) in
  x (fst p) = NaN /\ y (fst p) = NaN /\ x (snd p) = NaN /\ y (snd p) = NaN.
Proof. apply (collidePair_coincident_nan _ _ 3 4 5 2); try reflexivity. lra. Defined.

Lemma clampBoid_in_canvas_witness :
  let b := agentAt (-7) 900 5 in
  (x b <> NaN -> coord_in 5 (800 - 5) (x (@clampBoid demoScreen b)))
  /\ (y b <> NaN -> coord_in 5 (600 - 5) (y (@clampBoid demoScreen b)))
  /\ (x b = NaN -> x (@clampBoid demoScreen b) = NaN)
  /\ (y b = NaN -> y (@clampBoid demoScreen b) = NaN).
Proof. apply (@clampBoid_in_canvas demoScreen _ 5); [reflexivity | cbn; lra | cbn; lra]. Defined.

(** A world of two overlapping agents. *)
Definition pairWorld : world := mkWorld [agentAt 0 0 5; agentAt 6 0 5] (Fin 0) 0.

Lemma applyCollisions_frame_local_witness :
  exists w', @applyCollisions demoScreen 0 pairWorld = Some (tt, w')
    /\ length (boids w') = length (boids pairWorld)
    /\ lastTime w' = lastTime pairWorld /\ draws w' = draws pairWorld
    /\ (forall j, (j < 0)%nat -> boids w' !! j = boids pairWorld !! j)
    /\ (forall j b, boids pairWorld !! j = Some b ->
          exists b', boids w' !! j = Some b' /\ same_shape b b').
Proof. apply (@applyCollisions_frame_local demoScreen). cbn. lia. Defined.

Lemma applyCollisions_clamps_witness :
  exists w' b', @applyCollisions demoScreen 0 pairWorld = Some (tt, w')
    /\ boids w' !! 0%nat = Some b' /\ same_shape (agentAt 0 0 5) b'
    /\ nan_or_in 5 (800 - 5) (x b')
    /\ nan_or_in 5 (600 - 5) (y b').
Proof.
  apply (@applyCollisions_clamps demoScreen 0 pairWorld (agentAt 0 0 5) 5);
    [reflexivity | reflexivity | cbn; lra | cbn; lra].
Defined.
