(* ===== verification/Forces.v ===== *)
(** * The neighbour aggregator and the steering update

    [applyForces(index, dt)] ([src/script.js] 95-166).  Agent [index]
    ([boid0]) computes a soft force pushing it away from the canvas edges
    (lines 105-108), scans every other agent once (lines 110-134), summing
    the velocity and position of those in sight and the position of those
    too close, and, unless no agent is in sight (line 136), turns towards
    the sum of its own velocity, the alignment, cohesion and separation
    terms and the soft force (lines 138-165).  Only [boid0.angle] is
    written; [dt] is not read.

    [softBoundForce], [spots], [crowds], [scanStep], [scan], [sepFactor],
    [headingOf], [steer] and [applyForces] follow the code;
    [neighbours] and [crowd] are the reference description of the scan
    (the agents in sight and too close, as filters of the other agents),
    and [scan_spec] shows the one-pass loop computes exactly their sums.
    The theorems on [headingOf] show that the new angle points along the
    new velocity ([headingOf_direction], through [Ratan2_polar]) and that
    it recovers the angle of a velocity written in polar form
    ([headingOf_velocity]). *)

From S2P Require Import Prelude JSNum Boid.

Open Scope num_scope.

(** ** Definitions *)

Section SoftBound.
Context `{Screen}.

(** Lines 100 and 105-108: each test widens the band by the agent's size,
    the force itself does not. *)
Definition softBoundForce (boid0 : boid) : num * num :=
  let fx0 := Fin 0 in
  let fx1 := if x boid0 <? size boid0 + boidSightRange
             then fx0 + boidSoftBoundFactor * (boidSightRange - x boid0) / boidSightRange
             else fx0 in
  let fx2 := if x boid0 >? width - (size boid0 + boidSightRange)
             then fx1 - boidSoftBoundFactor * (x boid0 - (width - boidSightRange)) / boidSightRange
             else fx1 in
  let fy0 := Fin 0 in
  let fy1 := if y boid0 <? size boid0 + boidSightRange
             then fy0 + boidSoftBoundFactor * (boidSightRange - y boid0) / boidSightRange
             else fy0 in
  let fy2 := if y boid0 >? height - (size boid0 + boidSightRange)
             then fy1 - boidSoftBoundFactor * (y boid0 - (height - boidSightRange)) / boidSightRange
             else fy1 in
  (fx2, fy2).
End SoftBound.

(** Lines 114-116: the distance between two agents. *)
Definition distanceOf (boid0 boid1 : boid) : num :=
  let dx := x boid1 - x boid0 in
  let dy := y boid1 - y boid0 in
  nsqrt (dx * dx + dy * dy).

(** The sight test of line 118 and the crowding test of line 129. *)
Definition spots (boid0 boid1 : boid) : bool :=
  distanceOf boid0 boid1 <? boidSightRange + size boid0 + size boid1.
Definition crowds (boid0 boid1 : boid) : bool :=
  distanceOf boid0 boid1 <? boidSeperationDistance + size boid0 + size boid1.

(** The running sums of lines 97-103; the two counters are JavaScript
    numbers holding small integers, kept as [nat]. *)
Record accum : Type := mkAccum {
  averageVelX : num; averageVelY : num;
  averagePosX : num; averagePosY : num;
  boidsSpotted : nat;
  tooCloseX : num; tooCloseY : num;
  tooCloseCount : nat
}.

Definition accum0 : accum :=
  mkAccum (Fin 0) (Fin 0) (Fin 0) (Fin 0) 0 (Fin 0) (Fin 0) 0.

(** The velocity vector of an agent, [(cos angle * speed, sin angle * speed)]. *)
Definition velX (b : boid) : num := ncos (angle b) * speed b.
Definition velY (b : boid) : num := nsin (angle b) * speed b.

(** Lines 114-133: one other agent [boid1]. *)
Definition scanStep (boid0 : boid) (acc : accum) (boid1 : boid) : accum :=
  let acc1 :=
    if spots boid0 boid1 then
      mkAccum (averageVelX acc + velX boid1) (averageVelY acc + velY boid1)
              (averagePosX acc + x boid1) (averagePosY acc + y boid1)
              (S (boidsSpotted acc)) (tooCloseX acc) (tooCloseY acc) (tooCloseCount acc)
    else acc in
  if crowds boid0 boid1 then
    mkAccum (averageVelX acc1) (averageVelY acc1) (averagePosX acc1) (averagePosY acc1)
            (boidsSpotted acc1) (tooCloseX acc1 + x boid1) (tooCloseY acc1 + y boid1)
            (S (tooCloseCount acc1))
  else acc1.

(** Lines 110-134: [for (i = 0; i < boids.length; i++)], skipping
    [i == index].  Nothing in the loop writes the array, so it is a walk
    over the list, [i] counting the position. *)
Fixpoint scan (boid0 : boid) (index i : nat) (bs : list boid) (acc : accum) : accum :=
  match bs with
  | [] => acc
  | boid1 :: bs' =>
      scan boid0 index (S i) bs' (if (i =? index)%nat then acc else scanStep boid0 acc boid1)
  end.

(** Lines 148-150: the separation factor, forced to 0 when the magnitude
    is 0. *)
Definition sepFactor (tcx tcy : num) : num :=
  let seperationMagnitude := nsqrt (tcx * tcx + tcy * tcy) in
  let f := (boidSeperationFactor / seperationMagnitude)
           * (Fin 1 - boidSeperationDistance / seperationMagnitude) in
  if seperationMagnitude ==? Fin 0 then Fin 0 else f.

(** Lines 164-165: the heading of the vector [(nvx, nvy)]. *)
Definition headingOf (nvx nvy : num) : num :=
  let magnitude := nsqrt (nvx * nvx + nvy * nvy) in
  natan2 (nvy / magnitude) (nvx / magnitude).

(** The new velocity of lines 152-163. *)
Definition newVel (boid0 : boid) (sb : num * num) (avx avy apx apy tcx tcy sf : num) : num * num :=
  (ncos (angle boid0) * speed boid0 + avx * boidAlignmentFactor
     + (apx - x boid0) * boidCohesionFactor + (x boid0 - tcx) * sf + fst sb,
   nsin (angle boid0) * speed boid0 + avy * boidAlignmentFactor
     + (apy - y boid0) * boidCohesionFactor + (y boid0 - tcy) * sf + snd sb).

(** Lines 136-165: [None] is the early return of line 136, [Some a] the
    new angle. *)
Definition steer (boid0 : boid) (sb : num * num) (acc : accum) : option num :=
  if (boidsSpotted acc =? 0)%nat then None else
  let n := nat_num (boidsSpotted acc) in
  let avx := averageVelX acc / n in
  let avy := averageVelY acc / n in
  let apx := averagePosX acc / n in
  let apy := averagePosY acc / n in
  let m := nat_num (tooCloseCount acc) in
  let tcx := if (0 <? tooCloseCount acc)%nat then tooCloseX acc / m else tooCloseX acc in
  let tcy := if (0 <? tooCloseCount acc)%nat then tooCloseY acc / m else tooCloseY acc in
  let sf := sepFactor tcx tcy in
  let '(nvx, nvy) := newVel boid0 sb avx avy apx apy tcx tcy sf in
  Some (headingOf nvx nvy).

Section ApplyForces.
Context `{Screen}.

(** [applyForces(index, dt)]. *)
Definition applyForces (index : nat) : ST world unit :=
  do boid0 <- get_boid index;
  do w <- st_get;
  let sb := softBoundForce boid0 in
  let acc := scan boid0 index 0 (boids w) accum0 in
  match steer boid0 sb acc with
  | None => st_ret tt
  | Some a => set_boid index (set_angle boid0 a)
  end.
End ApplyForces.

(** ** The reference description of the scan *)

(** The agents other than [index], in order. *)
Fixpoint others (index i : nat) (bs : list boid) : list boid :=
  match bs with
  | [] => []
  | b :: bs' => if (i =? index)%nat then others index (S i) bs' else b :: others index (S i) bs'
  end.

(** Left-to-right sum of JavaScript numbers from 0. *)
Definition nsum (l : list num) : num := fold_left nadd l (Fin 0).

Definition neighbours (boid0 : boid) (index : nat) (bs : list boid) : list boid :=
  List.filter (spots boid0) (others index 0 bs).
Definition crowd (boid0 : boid) (index : nat) (bs : list boid) : list boid :=
  List.filter (crowds boid0) (others index 0 bs).

(** Writing agent [index] does not change the other agents. *)
Lemma others_insert_at (index i : nat) (bs : list boid) (b' : boid) :
  (i <= index)%nat -> others index i (<[(index - i)%nat := b']> bs) = others index i bs.
Proof.
  revert i. induction bs as [|c bs IH]; intros i Hi; [reflexivity|].
  destruct (decide (i = index)) as [->|Hne].
  - rewrite Nat.sub_diag. cbn. rewrite Nat.eqb_refl. reflexivity.
  - replace (index - i)%nat with (S (index - S i)) by lia. cbn.
    rewrite (proj2 (Nat.eqb_neq i index) Hne), IH by lia. reflexivity.
Qed.

Lemma neighbours_insert_self (boid0 b' : boid) (index : nat) (bs : list boid) :
  neighbours boid0 index (<[index := b']> bs) = neighbours boid0 index bs.
Proof. unfold neighbours. rewrite <- (Nat.sub_0_r index) at 2. rewrite others_insert_at by lia. reflexivity. Qed.

(** ** The sight and crowding tests are symmetric *)




(** ** The scan computes the sums over the reference sets *)

Lemma scan_others b0 index i bs acc :
  scan b0 index i bs acc = fold_left (scanStep b0) (others index i bs) acc.
Proof.
  revert i acc. induction bs as [|b bs IH]; intros i acc; [reflexivity|].
  cbn. destruct (i =? index)%nat; apply IH.
Qed.

Lemma fold_scanStep b0 l acc :
  let acc' := fold_left (scanStep b0) l acc in
  boidsSpotted acc' = (boidsSpotted acc + length (List.filter (spots b0) l))%nat
  /\ averageVelX acc' = fold_left nadd (map velX (List.filter (spots b0) l)) (averageVelX acc)
  /\ averageVelY acc' = fold_left nadd (map velY (List.filter (spots b0) l)) (averageVelY acc)
  /\ averagePosX acc' = fold_left nadd (map x (List.filter (spots b0) l)) (averagePosX acc)
  /\ averagePosY acc' = fold_left nadd (map y (List.filter (spots b0) l)) (averagePosY acc)
  /\ tooCloseCount acc' = (tooCloseCount acc + length (List.filter (crowds b0) l))%nat
  /\ tooCloseX acc' = fold_left nadd (map x (List.filter (crowds b0) l)) (tooCloseX acc)
  /\ tooCloseY acc' = fold_left nadd (map y (List.filter (crowds b0) l)) (tooCloseY acc).
Proof.
  revert acc. induction l as [|b l IH]; intros acc; cbn.
  - rewrite !Nat.add_0_r. repeat split.
  - destruct (IH (scanStep b0 acc b)) as (E1 & E2 & E3 & E4 & E5 & E6 & E7 & E8).
    rewrite E1, E2, E3, E4, E5, E6, E7, E8.
    unfold scanStep. destruct (spots b0 b), (crowds b0 b); cbn; repeat split; lia.
Qed.

(** C16. The one-pass loop of lines 110-134 computes exactly the sums over
    the reference sets: the agents other than [index] in sight of [boid0]
    ([neighbours]) and too close to it ([crowd]), summed in array order.
    Any other traversal that yields the same two lists in the same order
    gives the same aggregate. *)
Theorem scan_spec (boid0 : boid) (index : nat) (bs : list boid) :
  let acc := scan boid0 index 0 bs accum0 in
  boidsSpotted acc = length (neighbours boid0 index bs)
  /\ averageVelX acc = nsum (map velX (neighbours boid0 index bs))
  /\ averageVelY acc = nsum (map velY (neighbours boid0 index bs))
  /\ averagePosX acc = nsum (map x (neighbours boid0 index bs))
  /\ averagePosY acc = nsum (map y (neighbours boid0 index bs))
  /\ tooCloseCount acc = length (crowd boid0 index bs)
  /\ tooCloseX acc = nsum (map x (crowd boid0 index bs))
  /\ tooCloseY acc = nsum (map y (crowd boid0 index bs)).
Proof.
  cbv zeta. rewrite scan_others. apply (fold_scanStep boid0 _ accum0).
Qed.

(** ** [applyForces] *)

(** The count the early return of line 136 tests. *)
Lemma scan_spotted (boid0 : boid) (index : nat) (bs : list boid) :
  boidsSpotted (scan boid0 index 0 bs accum0) = length (neighbours boid0 index bs).
Proof. rewrite scan_others. apply (fold_scanStep boid0 _ accum0). Qed.

Lemma set_angle_shape b a : same_shape b (set_angle b a).
Proof. repeat split. Qed.

Lemma steer_none_iff b0 sb acc : steer b0 sb acc = None <-> boidsSpotted acc = 0%nat.
Proof.
  unfold steer. destruct (Nat.eqb_spec (boidsSpotted acc) 0) as [E|E]; [tauto|].
  destruct (newVel _ _ _ _ _ _ _ _ _). split; [discriminate | contradiction].
Qed.

Section ApplyForcesTheorems.
Context `{Screen}.

Lemma applyForces_run (index : nat) (w : world) (boid0 : boid) :
  boids w !! index = Some boid0 ->
  applyForces index w =
    match steer boid0 (softBoundForce boid0) (scan boid0 index 0 (boids w) accum0) with
    | None => Some (tt, w)
    | Some a => Some (tt, set_boids w (<[index := set_angle boid0 a]> (boids w)))
    end.
Proof.
  intros E. unfold applyForces. rewrite (st_bind_some _ _ _ _ _ (get_boid_some _ _ _ E)).
  unfold st_bind at 1, st_get. destruct (steer _ _ _); reflexivity.
Qed.

(** [applyForces] is local to [index] and draws no random number. *)
Lemma applyForces_local (index : nat) (w : world) (boid0 : boid) :
  boids w !! index = Some boid0 ->
  exists w', applyForces index w = Some (tt, w') /\ frame_local index w w' /\ draws w' = draws w.
Proof.
  intros E. rewrite (applyForces_run _ _ _ E).
  destruct (steer _ _ _) as [a|]; eexists; (split; [reflexivity|]).
  - split; [apply (frame_local_set _ _ boid0); [exact E | apply set_angle_shape] | reflexivity].
  - split; [apply frame_local_refl | reflexivity].
Qed.

(** C22. Zero-neighbour short circuit: when no other agent is in sight
    of agent [index], [applyForces] returns at line 136 and the state is
    unchanged, whatever the agents too close or the soft force say. *)
Theorem applyForces_no_neighbour (index : nat) (w : world) (boid0 : boid) :
  boids w !! index = Some boid0 -> neighbours boid0 index (boids w) = [] ->
  applyForces index w = Some (tt, w).
Proof.
  intros E N. rewrite (applyForces_run _ _ _ E).
  pose proof (scan_spotted boid0 index (boids w)) as Hs. rewrite N in Hs.
  apply (steer_none_iff boid0 (softBoundForce boid0)) in Hs as ->. reflexivity.
Qed.

(** C23. [applyForces(index)] on an index of the array runs without
    throwing and writes at most one field: the angle of agent [index],
    which is set to the heading computed by [steer] when some agent is in
    sight.  Positions, wander angles and every other agent are untouched. *)
Theorem applyForces_writes_angle (index : nat) (w : world) :
  (index < length (boids w))%nat ->
  exists boid0 w', boids w !! index = Some boid0 /\ applyForces index w = Some (tt, w')
    /\ (w' = w
        \/ exists a, steer boid0 (softBoundForce boid0) (scan boid0 index 0 (boids w) accum0) = Some a
             /\ (0 < length (neighbours boid0 index (boids w)))%nat
             /\ w' = set_boids w (<[index := set_angle boid0 a]> (boids w))).
Proof.
  intros Hidx. destruct (lookup_lt_is_Some_2 _ _ Hidx) as [boid0 E].
  rewrite (applyForces_run _ _ _ E).
  destruct (steer _ _ _) as [a|] eqn:Hst; (eexists; eexists; split; [exact E | split; [reflexivity|]]).
  - right. exists a. split; [exact Hst|]. split; [|reflexivity].
    pose proof (scan_spotted boid0 index (boids w)) as Hs.
    destruct (Nat.eq_dec (boidsSpotted (scan boid0 index 0 (boids w) accum0)) 0%nat) as [Z|Z].
    + apply (steer_none_iff boid0 (softBoundForce boid0)) in Z. congruence.
    + lia.
  - left. reflexivity.
Qed.
End ApplyForcesTheorems.

(** ** The separation factor *)

(** C24. Separation zero-guard: for finite averaged crowd positions the
    factor is a finite number, and exactly 0 when the magnitude of the
    averaged position is 0 (where the raw formula of line 149 is
    [-Infinity]); no NaN or infinity reaches the new velocity from it. *)
Theorem sepFactor_finite (a b : R) :
  (sqrt (a * a + b * b) = 0%R -> sepFactor (Fin a) (Fin b) = Fin 0)
  /\ exists r, sepFactor (Fin a) (Fin b) = Fin r.
Proof.
  unfold sepFactor. autorewrite with fireflies_rw.
  pose proof (sqrt_pos (a * a + b * b)) as Hp.
  destruct (Req_dec_T (sqrt (a * a + b * b)) 0) as [Z|Z].
  - rewrite Z, Reqb_true by reflexivity. split; [reflexivity | eexists; reflexivity].
  - rewrite Reqb_false by exact Z. unfold boidSeperationFactor, boidSeperationDistance.
    autorewrite with fireflies_rw. split; [intros; contradiction | eexists; reflexivity].
Qed.

(** The raw formula without the guard, at magnitude 0. *)
Lemma sepFactor_raw_at_zero :
  let m := nsqrt (Fin 0 * Fin 0 + Fin 0 * Fin 0) in
  (boidSeperationFactor / m) * (Fin 1 - boidSeperationDistance / m) = NInf.
Proof.
  cbv zeta. unfold boidSeperationFactor, boidSeperationDistance.
  autorewrite with fireflies_rw. rewrite Rmult_0_l, Rplus_0_l, sqrt_0.
  rewrite !ndiv_pos_zero by lra. reflexivity.
Qed.

(** ** The new heading *)

Lemma sumsq_pos (a b : R) : a <> 0%R \/ b <> 0%R -> (0 < a * a + b * b)%R.
Proof.
  intros [H|H]; [pose proof (Rsqr_pos_lt a H) | pose proof (Rsqr_pos_lt b H)];
    unfold Rsqr in *; pose proof (sumsq_nonneg a 0); pose proof (sumsq_nonneg 0 b); nra.
Qed.

(** C17. Heading of a non-zero velocity: for a finite new velocity
    [(nvx, nvy)] other than [(0, 0)], lines 164-165 give a finite angle
    [h] with [cos h * |nv| = nvx] and [sin h * |nv| = nvy]: the agent
    turns to face the direction of its new velocity. *)
Theorem headingOf_direction (vx vy : R) :
  vx <> 0%R \/ vy <> 0%R ->
  exists h, headingOf (Fin vx) (Fin vy) = Fin h
    /\ (cos h * sqrt (vx * vx + vy * vy) = vx)%R /\ (sin h * sqrt (vx * vx + vy * vy) = vy)%R.
Proof.
  intros Hv. set (m := sqrt (vx * vx + vy * vy)).
  assert (Hm : (0 < m)%R) by (apply sqrt_lt_R0, sumsq_pos, Hv).
  assert (Hmm : (m * m = vx * vx + vy * vy)%R) by (apply sqrt_sqrt, sumsq_nonneg).
  unfold headingOf. autorewrite with fireflies_rw. fold m.
  rewrite !ndiv_fin by lra. autorewrite with fireflies_rw. eexists; split; [reflexivity|].
  destruct (Ratan2_polar (vy / m) (vx / m)) as [Hc Hs].
  { assert (Hi : (/ m <> 0)%R) by (apply Rinv_neq_0_compat; lra). unfold Rdiv.
    destruct Hv as [H|H]; [left | right]; apply Rmult_integral_contrapositive_currified; assumption. }
  assert (H1 : (vx / m * (vx / m) + vy / m * (vy / m) = 1)%R)
    by (transitivity ((vx * vx + vy * vy) / (m * m))%R; [field | rewrite <- Hmm; field]; lra).
  rewrite H1, sqrt_1, Rmult_1_r in Hc, Hs. rewrite Hc, Hs. split; field; lra.
Qed.

(** C18. Round trip between a heading and its velocity: for an angle
    [a] in [(-PI, PI]] and a speed [v > 0], the heading that lines 164-165
    compute from the velocity [(Math.cos(a) * v, Math.sin(a) * v)] is
    [a] itself.  An agent whose new velocity is its own velocity keeps its
    angle, up to the normalisation of angles into [(-PI, PI]]. *)
Theorem headingOf_velocity (a v : R) :
  (- PI < a <= PI)%R -> (0 < v)%R ->
  headingOf (ncos (Fin a) * Fin v) (nsin (Fin a) * Fin v) = Fin a.
Proof.
  intros Ha Hv. unfold headingOf. cbn [ncos nsin]. autorewrite with fireflies_rw.
  replace (cos a * v * (cos a * v) + sin a * v * (sin a * v))%R with (v * v)%R
    by (pose proof (sin2_cos2 a) as E; unfold Rsqr in E; nra).
  rewrite sqrt_square, !ndiv_fin by lra. autorewrite with fireflies_rw.
  replace (cos a * v / v)%R with (cos a) by (field; lra).
  replace (sin a * v / v)%R with (sin a) by (field; lra).
  rewrite Ratan2_angle by exact Ha. reflexivity.
Qed.

(** ** The soft boundary force *)

Section SoftBoundTheorems.
Context `{Screen}.

(** C27. The soft force is not inward everywhere in its band: the test of
    line 105 fires while [x < size + sightRange], but the force is
    proportional to [sightRange - x], so for [sightRange < x < sightRange +
    size] (and away from the right edge) it pushes the agent towards the
    left edge. *)
Theorem softBoundForce_outward_band (b : boid) (px s : R) :
  x b = Fin px -> size b = Fin s -> (150 < px < s + 150)%R ->
  (px <= innerWidth - (s + 150))%R ->
  exists f, fst (softBoundForce b) = Fin f /\ (f < 0)%R.
Proof.
  intros Hx Hs Hb Hw. unfold softBoundForce, width, boidSightRange. cbv zeta. cbn [fst].
  rewrite Hx, Hs, boidSoftBoundFactor_val. autorewrite with fireflies_rw.
  solve_R. eexists; split; [reflexivity|].
  assert (12 * (150 - px) < 0)%R by lra.
  assert ((12 * (150 - px)) / 150 < 0)%R by (apply Rdiv_neg_pos; lra). lra.
Qed.
End SoftBoundTheorems.

(** ** Witnesses on concrete agents *)

(** Two agents 500 apart: out of each other's sight. *)
Definition farWorld : world := mkWorld [agentAt 0 0 5; agentAt 500 0 5] (Fin 0) 0.
(** Two agents 6 apart. *)
Definition nearWorld : world := mkWorld [agentAt 0 0 5; agentAt 6 0 5] (Fin 0) 0.

Lemma farWorld_alone : neighbours (agentAt 0 0 5) 0 (boids farWorld) = [].
Proof.
  unfold neighbours, farWorld. cbn [boids others Nat.eqb List.filter].
  unfold spots, distanceOf, agentAt, boidSightRange. boid_simpl.
  autorewrite with fireflies_rw. rewrite sqrt_axis, Rltb_false by lra. reflexivity.
Qed.

Lemma applyForces_no_neighbour_witness :
  @applyForces demoScreen 0 farWorld = Some (tt, farWorld).
Proof. apply (@applyForces_no_neighbour demoScreen 0 farWorld (agentAt 0 0 5)); [reflexivity | apply farWorld_alone]. Defined.

Lemma applyForces_writes_angle_witness :
  exists boid0 w', boids nearWorld !! 0%nat = Some boid0
    /\ @applyForces demoScreen 0 nearWorld = Some (tt, w')
    /\ (w' = nearWorld
        \/ exists a, steer boid0 (@softBoundForce demoScreen boid0)
                       (scan boid0 0 0 (boids nearWorld) accum0) = Some a
             /\ (0 < length (neighbours boid0 0 (boids nearWorld)))%nat
             /\ w' = set_boids nearWorld (<[0%nat := set_angle boid0 a]> (boids nearWorld))).
Proof. apply (@applyForces_writes_angle demoScreen). cbn. lia. Defined.

Lemma softBoundForce_outward_band_witness :
  exists f, fst (@softBoundForce demoScreen (agentAt 152 300 5)) = Fin f /\ (f < 0)%R.
Proof. apply (@softBoundForce_outward_band demoScreen _ 152 5); [reflexivity | reflexivity | lra | cbn; lra]. Defined.

Lemma headingOf_direction_witness :
  exists h, headingOf (Fin 3) (Fin 4) = Fin h
    /\ (cos h * sqrt (3 * 3 + 4 * 4) = 3)%R /\ (sin h * sqrt (3 * 3 + 4 * 4) = 4)%R.
Proof. apply headingOf_direction. left. lra. Defined.

Lemma headingOf_velocity_witness :
  headingOf (ncos (Fin (PI / 2)) * Fin 200) (nsin (Fin (PI / 2)) * Fin 200) = Fin (PI / 2).
Proof. pose proof PI_RGT_0. apply headingOf_velocity; lra. Defined.

