(* ===== verification/Frame.v ===== *)
(** * One agent's update, the animation frame and the start-up

    [updateBoid(index, dt)] ([src/script.js] 77-93): the wander angle
    takes a random step (line 81), [applyForces] may turn the agent,
    [applyCollisions] corrects overlaps with later agents and clamps it,
    and only then is it moved along its heading and wander direction
    (lines 91-92).  [loop] (43-75) is the population controller followed
    by [updateBoid] on every index in order; [drawBoid] only paints.
    [init] (32-41) appends [boidAmount] agents and runs the first frame;
    every later frame is one more [loop], scheduled by
    [requestAnimationFrame], with a timestamp that does not decrease.

    Theorems: [updateBoid] runs on every agent of the array, changes
    nothing before [index], keeps every agent's shape, and, for an agent
    with no neighbour in sight, is the wander step, the collision pass and
    the integration of what that pass left; [init] and every frame, at
    any timestamp, return within their fuel ([js_for] fails when the fuel
    runs out first); a frame on a forward clock keeps the size,
    speed and colour of every existing agent, and leaves every agent NaN
    or within [4.52] pixels of its clamped band; the clamp itself does not
    hold at the end of a frame (the integration step comes after it: a
    concrete frame ends with an agent outside it); every state reachable
    by [init] and frames with non-decreasing timestamps holds between
    [boidAmount] and [maxBoidAmount] agents of the right shape, and its
    next frame never throws. *)

From S2P Require Import Prelude JSNum Boid Population Collisions Forces.

Open Scope num_scope.

(** ** Definitions *)

(** Line 81, with [r] the value of [Math.random()]. *)
Definition wanderStep (boid : boid) (r dt : num) : Boid.boid :=
  set_wanderAngle boid (wanderAngle boid + (r * Fin 2 - Fin 1) * boidWanderSpeed * dt).

(** Lines 91-92: the [y] update reads the angles after the [x] update,
    which did not change them. *)
Definition integrate (boid : boid) (dt : num) : Boid.boid :=
  let b1 := set_x boid (x boid + (ncos (angle boid) * speed boid
                                  + ncos (wanderAngle boid) * boidWanderRadius) * dt) in
  set_y b1 (y b1 + (nsin (angle b1) * speed b1 + nsin (wanderAngle b1) * boidWanderRadius) * dt).

Section Frame.
Context `{Screen} `{Rng}.

(** [updateBoid(index, dt)]: [boid] is a reference to the slot, so each
    read after a call sees what the call wrote. *)
Definition updateBoid (index : nat) (dt : num) : ST world unit :=
  do boid <- get_boid index;
  do r <- random;
  do set_boid index (wanderStep boid r dt);
  do applyForces index;
  do applyCollisions index;
  do boid' <- get_boid index;
  set_boid index (integrate boid' dt).

(** [loop()], without its drawing: the controller, then
    [for (let i = 0; i < boids.length; i++) updateBoid(i, deltaTime)].
    The loop is given the array's length as fuel, which [loop_total] shows is
    enough. *)
Definition loop (time : num) : ST world unit :=
  do deltaTime <- loopHead time;
  do w <- st_get;
  js_for (length (boids w)) (fun w => length (boids w)) (fun i => updateBoid i deltaTime) 0.

(** [boids.push(newBoid())] (line 37). *)
Definition pushNewBoid : ST world unit :=
  do b <- newBoid; st_modify (fun w => set_boids w (js_push (boids w) b)).

(** [init()], without the canvas set-up: [boidAmount] pushes, then the
    first frame at [time]. *)
Definition init (time : num) : ST world unit :=
  do js_for boidAmount (fun _ => boidAmount) (fun _ => pushNewBoid) 0;
  loop time.

(** [requestAnimationFrame(loop)] (line 74) on a display that refreshes
    every [delta] ms: [n] more frames, each at [lastTime + delta]. *)
Fixpoint run_frames (delta : R) (n : nat) (w : world) : option world :=
  match n with
  | O => Some w
  | S n' => match loop (lastTime w + Fin delta) w with
            | Some (_, w') => run_frames delta n' w'
            | None => None
            end
  end.
End Frame.

(** The state before [init]: no agent, [lastTime = 0], no draw yet. *)
Definition initialWorld : world := mkWorld [] (Fin 0) 0.

(** ** The integration step moves a coordinate by at most 4.52 *)

(** A value of [Math.cos] or [Math.sin]. *)
Definition unit_or_nan (c : num) : Prop := c = NaN \/ exists r, c = Fin r /\ (-1 <= r <= 1)%R.

Lemma ncos_unit a : unit_or_nan (ncos a).
Proof. destruct a; [right; eexists; split; [reflexivity | apply COS_bound] | left..]; reflexivity. Qed.

Lemma nsin_unit a : unit_or_nan (nsin a).
Proof. destruct a; [right; eexists; split; [reflexivity | apply SIN_bound] | left..]; reflexivity. Qed.

(** With [speed <= 220], wander radius 6 and [dt <= 0.02] s, one step
    moves a coordinate by at most [226 * 0.02 = 4.52]. *)
Lemma coord_step (p c1 c2 : num) (lo hi v d : R) :
  nan_or_in lo hi p -> unit_or_nan c1 -> unit_or_nan c2 ->
  (0 <= v <= 220)%R -> (0 <= d <= 0.02)%R ->
  nan_or_in (lo - 4.52) (hi + 4.52) (p + (c1 * Fin v + c2 * boidWanderRadius) * Fin d).
Proof.
  unfold boidWanderRadius.
  intros [->|(r & -> & Hr)] [->|(a & -> & Ha)] [->|(b & -> & Hb)] Hv Hd;
    autorewrite with fireflies_rw; try (left; reflexivity).
  right. eexists; split; [reflexivity|].
  assert (Ht : (-226 <= a * v + b * 6 <= 226)%R) by nra.
  assert (Htd : (-4.52 <= (a * v + b * 6) * d <= 4.52)%R) by nra.
  lra.
Qed.

Section UpdateFacts.
Context `{Screen}.

Lemma integrate_band (b : boid) (s v d : R) :
  speed b = Fin v -> (0 <= v <= 220)%R -> (0 <= d <= 0.02)%R ->
  nan_or_in s (innerWidth - s) (x b) -> nan_or_in s (innerHeight - s) (y b) ->
  nan_or_in (s - 4.52) (innerWidth - s + 4.52) (x (integrate b (Fin d)))
  /\ nan_or_in (s - 4.52) (innerHeight - s + 4.52) (y (integrate b (Fin d))).
Proof.
  intros Hv Hvr Hd Hx Hy. unfold integrate. boid_simpl. rewrite Hv.
  split; apply coord_step; auto using ncos_unit, nsin_unit.
Qed.
End UpdateFacts.

Lemma integrate_shape b dt : same_shape b (integrate b dt).
Proof. repeat split. Qed.

Lemma wanderStep_shape b r dt : same_shape b (wanderStep b r dt).
Proof. repeat split. Qed.

#[export] Hint Resolve integrate_shape wanderStep_shape : fireflies.

(** ** One agent's update *)

Section UpdateBoid.
Context `{Screen} `{Rng}.

(** [updateBoid(index, dt)] on an agent of the array runs without
    throwing, is local to [index], draws one random number, and leaves at
    [index] the integration step applied to the clamp of an agent of the
    same shape. *)
Lemma updateBoid_local (index : nat) (dt : num) (w : world) (b : boid) :
  boids w !! index = Some b ->
  exists w' b1, updateBoid index dt w = Some (tt, w') /\ frame_local index w w'
    /\ draws w' = S (draws w) /\ same_shape b b1
    /\ boids w' !! index = Some (integrate (clampBoid b1) dt).
Proof.
  intros Eb. unfold updateBoid.
  rewrite (st_bind_some _ _ _ _ _ (get_boid_some _ _ _ Eb)).
  rewrite (st_bind_some _ _ w _ (mkWorld (boids w) (lastTime w) (S (draws w)))) by reflexivity.
  rewrite (st_bind_some _ _ _ _ _ (set_boid_run _ _ _)).
  set (w1 := mkWorld (boids w) (lastTime w) (S (draws w))).
  set (b2 := wanderStep b (Fin (rng_draw (draws w))) dt).
  set (w2 := set_boids w1 (<[index := b2]> (boids w1))).
  assert (F2 : frame_local index w w2).
  { apply (frame_local_trans _ _ w1); [apply frame_local_draws|].
    apply (frame_local_set _ _ b); [exact Eb | apply wanderStep_shape]. }
  assert (E2 : boids w2 !! index = Some b2).
  { boid_simpl. apply list_lookup_insert_eq. eapply lookup_lt_Some; exact Eb. }
  destruct (applyForces_local index w2 _ E2) as (w3 & R3 & F3 & D3).
  rewrite (st_bind_some _ _ _ _ _ R3).
  destruct (proj2 (proj2 (proj2 (frame_local_trans _ _ _ _ F2 F3))) index b Eb) as (b3 & E3 & S3).
  destruct (applyCollisions_local index w3 b3 E3) as (w4 & b1 & R4 & F4 & D4 & S4 & _ & E4).
  rewrite (st_bind_some _ _ _ _ _ R4), (st_bind_some _ _ _ _ _ (get_boid_some _ _ _ E4)),
    set_boid_run.
  eexists; exists b1. split; [reflexivity|]. split; [|split; [|split]].
  - apply (frame_local_trans _ _ w2); [exact F2|]. apply (frame_local_trans _ _ w3); [exact F3|].
    apply (frame_local_trans _ _ w4); [exact F4|].
    apply (frame_local_set _ _ (clampBoid b1)); [exact E4 | apply integrate_shape].
  - boid_simpl. rewrite D4, D3. reflexivity.
  - eapply same_shape_trans; eassumption.
  - boid_simpl. apply list_lookup_insert_eq. eapply lookup_lt_Some; exact E4.
Qed.

(** A completed [updateBoid] keeps the array's length: the bound of the
    frame's [for] loop is the same before every iteration. *)
Lemma updateBoid_length (index : nat) (dt : num) (w w' : world) :
  updateBoid index dt w = Some (tt, w') -> length (boids w') = length (boids w).
Proof.
  intros Hrun. destruct (boids w !! index) as [b|] eqn:Eb.
  - destruct (updateBoid_local index dt w b Eb) as (w'' & _ & R & (L & _) & _).
    rewrite R in Hrun. injection Hrun as <-. exact L.
  - unfold updateBoid in Hrun. rewrite (st_bind_none _ _ _ (get_boid_none _ _ Eb)) in Hrun.
    discriminate.
Qed.

(** C15. Zero-neighbour short circuit over a whole update: when no other
    agent is in sight of agent [index], [updateBoid] is the wander step
    (one random draw), then [applyCollisions] on exactly that world
    ([applyForces] returns at line 136 without writing), then the
    integration of lines 91-92 applied to the agent the collision pass
    left at [index], whose heading and speed are the old ones. *)
Theorem updateBoid_no_neighbour (index : nat) (dt : num) (w : world) (b : boid) :
  boids w !! index = Some b -> neighbours b index (boids w) = [] ->
  let b2 := wanderStep b (Fin (rng_draw (draws w))) dt in
  exists w4 bc,
    applyCollisions index (mkWorld (<[index := b2]> (boids w)) (lastTime w) (S (draws w)))
      = Some (tt, w4)
    /\ boids w4 !! index = Some bc /\ angle bc = angle b /\ speed bc = speed b
    /\ updateBoid index dt w
       = Some (tt, mkWorld (<[index := integrate bc dt]> (boids w4)) (lastTime w4) (draws w4)).
Proof.
  intros Eb N b2. unfold updateBoid.
  rewrite (st_bind_some _ _ _ _ _ (get_boid_some _ _ _ Eb)).
  rewrite (st_bind_some _ _ w _ (mkWorld (boids w) (lastTime w) (S (draws w)))) by reflexivity.
  rewrite (st_bind_some _ _ _ _ _ (set_boid_run _ _ _)).
  set (w2 := mkWorld (<[index := b2]> (boids w)) (lastTime w) (S (draws w))).
  change (set_boids _ _) with w2.
  assert (E2 : boids w2 !! index = Some b2).
  { cbn [w2 boids]. apply list_lookup_insert_eq. eapply lookup_lt_Some; exact Eb. }
  assert (R3 : applyForces index w2 = Some (tt, w2)).
  { assert (N2 : neighbours b2 index (boids w2) = []).
    { cbn [w2 boids]. rewrite neighbours_insert_self. exact N. }
    rewrite (applyForces_run _ _ _ E2). pose proof (scan_spotted b2 index (boids w2)) as Hs.
    rewrite N2 in Hs. apply (steer_none_iff b2 (softBoundForce b2)) in Hs as ->. reflexivity. }
  rewrite (st_bind_some _ _ _ _ _ R3).
  destruct (applyCollisions_local index w2 b2 E2) as (w4 & b1 & R4 & _ & _ & S4 & H4 & E4).
  exists w4, (clampBoid b1). split; [exact R4|]. split; [exact E4|].
  rewrite (proj1 (clampBoid_angles b1)), (proj1 (proj2 (clampBoid_shape b1))).
  destruct H4 as [H4 _], S4 as (_ & S4 & _).
  split; [first [rewrite <- H4 | rewrite H4]; reflexivity|].
  split; [first [rewrite <- S4 | rewrite S4]; reflexivity|].
  rewrite (st_bind_some _ _ _ _ _ R4), (st_bind_some _ _ _ _ _ (get_boid_some _ _ _ E4)),
    set_boid_run. reflexivity.
Qed.

(** A completed [updateBoid(index)] leaves an agent at [index], and
    reading it back changes nothing: what [drawBoid(index)] does next. *)
Lemma updateBoid_then_get (index : nat) (dt : num) :
  (do updateBoid index dt; do _ <- get_boid index; st_ret tt) ≈ updateBoid index dt.
Proof.
  intros w. destruct (boids w !! index) as [b|] eqn:Eb.
  - destruct (updateBoid_local index dt w b Eb) as (w' & b1 & R & _ & _ & _ & E).
    rewrite (st_bind_some _ _ _ _ _ R), R, (st_bind_some _ _ _ _ _ (get_boid_some _ _ _ E)).
    reflexivity.
  - assert (U : updateBoid index dt w = None)
      by (unfold updateBoid; apply st_bind_none, get_boid_none, Eb).
    rewrite (st_bind_none _ _ _ U), U. reflexivity.
Qed.

(** [updateBoid(index, dt)] on an agent of size [s] and speed [v], with
    [dt] within the controller's cap: agent [index] ends NaN or within
    4.52 of the clamped band on each axis. *)
Lemma updateBoid_spec (index : nat) (w : world) (b : boid) (s v d : R) :
  boids w !! index = Some b -> size b = Fin s -> speed b = Fin v -> (0 <= v <= 220)%R ->
  (2 * s <= innerWidth)%R -> (2 * s <= innerHeight)%R -> (0 <= d <= 0.02)%R ->
  exists w' b', updateBoid index (Fin d) w = Some (tt, w') /\ frame_local index w w'
    /\ draws w' = S (draws w) /\ boids w' !! index = Some b'
    /\ nan_or_in (s - 4.52) (innerWidth - s + 4.52) (x b')
    /\ nan_or_in (s - 4.52) (innerHeight - s + 4.52) (y b').
Proof.
  intros Eb Hs Hv Hvr Hw Hh Hd.
  destruct (updateBoid_local index (Fin d) w b Eb) as (w' & b1 & R & F & D & (S1 & V1 & _) & E).
  assert (Hs1 : size b1 = Fin s) by congruence.
  destruct (clampBoid_nan_or_in b1 s Hs1 Hw Hh) as [X Y].
  exists w', (integrate (clampBoid b1) (Fin d)). do 4 (split; [assumption|]).
  apply integrate_band with v; [|assumption..].
  destruct (clampBoid_shape b1) as (_ & -> & _). congruence.
Qed.
End UpdateBoid.

(** ** One frame *)

Section FrameLoop.
Context `{Screen} `{Rng}.

(** Agent [b] is NaN or within 4.52 of its clamped band on each axis: the
    bound that holds at the end of a frame. *)
Definition in_band (b : boid) : Prop :=
  exists s, size b = Fin s
    /\ nan_or_in (s - 4.52) (innerWidth - s + 4.52) (x b)
    /\ nan_or_in (s - 4.52) (innerHeight - s + 4.52) (y b).

Lemma in_band_of_shape b b' s :
  same_shape b b' -> size b = Fin s ->
  nan_or_in (s - 4.52) (innerWidth - s + 4.52) (x b') ->
  nan_or_in (s - 4.52) (innerHeight - s + 4.52) (y b') -> in_band b'.
Proof. intros (Hs & _) Hb X Y. exists s. rewrite Hs. auto. Qed.

(** The iterations [k .. k + m - 1] of the frame's [for] loop, on agents of
    the right shape where those before [k] are already in the band. *)
Lemma st_iter_updateBoid (d : R) (k m : nat) (w : world) :
  (0 <= d <= 0.02)%R -> (20 <= innerWidth)%R -> (20 <= innerHeight)%R ->
  (k + m = length (boids w))%nat -> Forall boid_ok (boids w) ->
  (forall j b, (j < k)%nat -> boids w !! j = Some b -> in_band b) ->
  exists w', st_iter (fun i => updateBoid i (Fin d)) (seq k m) w = Some (tt, w')
    /\ length (boids w') = length (boids w) /\ lastTime w' = lastTime w
    /\ draws w' = (m + draws w)%nat /\ frame_local 0 w w'
    /\ Forall boid_ok (boids w') /\ Forall in_band (boids w').
Proof.
  intros Hd HW HH. revert k w. induction m as [|m IH]; intros k w Hkm Hok Hband.
  - exists w. split; [destruct w; reflexivity|]. do 3 (split; [reflexivity || assumption|]).
    split; [apply frame_local_refl|]. split; [assumption|].
    apply Forall_lookup_2. intros j b Eb. apply (Hband j); [|exact Eb].
    apply lookup_lt_Some in Eb. lia.
  - destruct (lookup_lt_is_Some_2 (boids w) k) as [b Eb]; [lia|].
    destruct (Forall_lookup_1 _ _ _ _ Hok Eb) as (s & v & Hs & Hsr & Hv & Hvr).
    destruct (updateBoid_spec k w b s v d Eb Hs Hv ltac:(lra) ltac:(lra) ltac:(lra) Hd)
      as (w1 & b1 & R1 & F1 & D1 & E1 & X1 & Y1).
    pose proof F1 as (L1 & T1 & P1 & _).
    destruct (IH (S k) w1) as (w2 & R2 & L2 & T2 & D2 & F2 & Ok2 & Band2).
    + lia.
    + exact (frame_local_ok _ _ _ F1 Hok).
    + intros j c Hj Ec. destruct (decide (j = k)) as [->|Hne].
      * rewrite E1 in Ec. injection Ec as <-.
        exact (in_band_of_shape b b1 s (frame_local_at _ _ _ _ _ _ F1 Eb E1) Hs X1 Y1).
      * rewrite P1 in Ec by lia. exact (Hband j c ltac:(lia) Ec).
    + exists w2. cbn [seq st_iter]. rewrite (st_bind_some _ _ _ _ _ R1).
      split; [exact R2|]. split; [congruence|]. split; [congruence|]. split; [lia|].
      split; [|auto]. apply (frame_local_trans _ _ w1); [|exact F2].
      apply (frame_local_weaken _ k); [lia | exact F1].
Qed.

(** The controller on a forward clock, as the frame needs it: [lastTime]
    takes the new timestamp, no agent is removed, and the array stays
    within [maxBoidAmount] agents of the right shape. *)
Lemma loopHead_forward (t l : R) (w : world) :
  lastTime w = Fin l -> (l <= t)%R -> Forall boid_ok (boids w) ->
  (length (boids w) <= maxBoidAmount)%nat ->
  exists d w1, loopHead (Fin t) w = Some (Fin d, w1) /\ (0 <= d <= 0.02)%R
    /\ lastTime w1 = Fin t /\ Forall boid_ok (boids w1)
    /\ (length (boids w) <= length (boids w1) <= maxBoidAmount)%nat
    /\ length (boids w1) = (if growTest (fpsOf (Fin d)) (length (boids w))
                            then S (length (boids w)) else length (boids w))
    /\ (forall j b, boids w !! j = Some b -> boids w1 !! j = Some b).
Proof.
  intros Hl Hle Hok Hmax. destruct (loopHead_run (Fin t) w) as (b & w1 & R & Hb & T & Hbs).
  rewrite Hl in R, Hbs. rewrite (shrinkTest_forward_clock t l Hle) in Hbs.
  destruct (deltaTimeOf_range t l Hle) as (d & Ed & Hd). rewrite Ed in R, Hbs.
  exists d, w1. do 3 (split; [assumption|]). cbv zeta in Hbs.
  destruct (growTest _ _) eqn:G; rewrite Hbs; rewrite ?length_js_push.
  - apply growTest_lt in G. unfold js_push.
    split; [apply Forall_app; auto | split; [lia | split; [reflexivity | intros j c Ec; apply lookup_app_l_Some, Ec]]].
  - split; [exact Hok | split; [lia | auto]].
Qed.
End FrameLoop.

Section FrameTheorems.
Context `{Screen} `{Rng}.

(** One animation frame on a forward clock, on agents of the right
    shape and a window of at least 20 x 20: [loop] runs to completion
    without throwing (the fuel of its [for] loop, the array's length, is
    enough), stores the timestamp, never removes an agent nor exceeds
    [maxBoidAmount], keeps every agent's shape, and leaves every agent NaN
    or within 4.52 pixels of its clamped band. *)
Lemma loop_frame (t l : R) (w : world) :
  lastTime w = Fin l -> (l <= t)%R -> Forall boid_ok (boids w) ->
  (length (boids w) <= maxBoidAmount)%nat ->
  (20 <= innerWidth)%R -> (20 <= innerHeight)%R ->
  exists w', loop (Fin t) w = Some (tt, w') /\ lastTime w' = Fin t
    /\ (length (boids w) <= length (boids w') <= maxBoidAmount)%nat
    /\ Forall boid_ok (boids w') /\ Forall in_band (boids w')
    /\ (forall j b, boids w !! j = Some b ->
          exists b', boids w' !! j = Some b' /\ same_shape b b')
    /\ length (boids w') = (if growTest (fpsOf (deltaTimeOf (Fin t) (Fin l))) (length (boids w))
                            then S (length (boids w)) else length (boids w)).
Proof.
  intros Hl Hle Hok Hmax HW HH.
  destruct (deltaTimeOf_range t l Hle) as (d0 & Ed & _). rewrite Ed.
  destruct (loopHead_forward t l w Hl Hle Hok Hmax) as (d & w1 & R1 & Hd & T1 & Ok1 & L1 & G1 & P1).
  assert (E0 : d0 = d).
  { destruct (loopHead_run (Fin t) w) as (b & w1' & R1' & _). rewrite Hl, Ed, R1 in R1'. congruence. }
  subst d0.
  destruct (st_iter_updateBoid d 0 (length (boids w1)) w1 Hd HW HH eq_refl Ok1)
    as (w2 & R2 & L2 & T2 & _ & (_ & _ & _ & Sh) & Ok2 & Band2); [intros; lia|].
  exists w2. unfold loop. rewrite (st_bind_some _ _ _ _ _ R1).
  rewrite (st_bind_some _ _ w1 w1 w1) by reflexivity.
  rewrite js_for_seq; [| intros ???; apply updateBoid_length | lia].
  rewrite Nat.sub_0_r. split; [exact R2|]. split; [congruence|]. split; [lia|].
  do 2 (split; [assumption|]). split; [intros j b Eb; exact (Sh j b (P1 j b Eb)) | congruence].
Qed.

Lemma pushNewBoid_run (w : world) :
  exists b, pushNewBoid w = Some (tt, mkWorld (js_push (boids w) b) (lastTime w) (7 + draws w))
    /\ boid_ok b.
Proof.
  destruct (newBoid_run w) as (b & R & Hb). exists b. unfold pushNewBoid.
  rewrite (st_bind_some _ _ _ _ _ R). split; [reflexivity | exact Hb].
Qed.

Lemma st_iter_pushNewBoid (l : list nat) (w : world) :
  Forall boid_ok (boids w) ->
  exists w', st_iter (fun _ => pushNewBoid) l w = Some (tt, w')
    /\ length (boids w') = (length (boids w) + length l)%nat
    /\ lastTime w' = lastTime w /\ Forall boid_ok (boids w').
Proof.
  revert w. induction l as [|i l IH]; intros w Hok.
  - exists w. split; [destruct w; reflexivity|]. cbn. auto with lia.
  - destruct (pushNewBoid_run w) as (b & R & Hb).
    destruct (IH (mkWorld (js_push (boids w) b) (lastTime w) (7 + draws w)))
      as (w' & R' & L' & T' & Ok'); [unfold js_push; apply Forall_app; auto|].
    exists w'. cbn [st_iter]. rewrite (st_bind_some _ _ _ _ _ R).
    split; [exact R'|]. rewrite L', T'. boid_simpl. rewrite length_js_push. cbn. auto with lia.
Qed.

(** [init] before the first frame: [boidAmount] agents of the right shape
    and [lastTime = 0]. *)
Lemma init_pushes :
  exists w0, js_for boidAmount (fun _ => boidAmount) (fun _ => pushNewBoid) 0 initialWorld
               = Some (tt, w0)
    /\ length (boids w0) = boidAmount /\ lastTime w0 = Fin 0 /\ Forall boid_ok (boids w0).
Proof.
  rewrite (js_for_seq (fun _ => boidAmount)) by (reflexivity || lia).
  destruct (st_iter_pushNewBoid (seq 0 (boidAmount - 0)) initialWorld) as (w0 & R & L & T & Ok);
    [constructor|].
  exists w0. rewrite L, length_seq. auto.
Qed.
End FrameTheorems.

Section Termination.
Context `{Screen} `{Rng}.

(** The frame's [for] loop over [k .. k + m - 1] never throws. *)
Lemma st_iter_updateBoid_total (dt : num) (k m : nat) (w : world) :
  (k + m = length (boids w))%nat ->
  exists w', st_iter (fun i => updateBoid i dt) (seq k m) w = Some (tt, w')
    /\ lastTime w' = lastTime w.
Proof.
  revert k w. induction m as [|m IH]; intros k w Hkm; [exists w; destruct w; split; reflexivity|].
  destruct (lookup_lt_is_Some_2 (boids w) k) as [b Eb]; [lia|].
  destruct (updateBoid_local k dt w b Eb) as (w1 & _ & R1 & (L1 & T1 & _) & _).
  destruct (IH (S k) w1) as (w2 & R2 & T2); [lia|].
  exists w2. cbn [seq st_iter]. rewrite (st_bind_some _ _ _ _ _ R1). split; congruence.
Qed.


(** Every frame runs to completion, from any state at any timestamp, and
    leaves [lastTime] at that timestamp. *)
Lemma loop_total (time : num) (w : world) :
  exists w', loop time w = Some (tt, w') /\ lastTime w' = time.
Proof.
  destruct (loopHead_run time w) as (b & w1 & R1 & _ & T1 & _).
  destruct (st_iter_updateBoid_total (deltaTimeOf time (lastTime w)) 0 (length (boids w1)) w1)
    as (w2 & R2 & T2); [reflexivity|].
  exists w2. unfold loop. rewrite (st_bind_some _ _ _ _ _ R1), (st_bind_some _ _ w1 w1 w1),
    js_for_seq, Nat.sub_0_r by (reflexivity || (intros ???; apply updateBoid_length) || lia).
  split; congruence.
Qed.

(** [init] runs to completion from the empty state at any timestamp. *)
Lemma init_total (time : num) :
  exists w, init time initialWorld = Some (tt, w) /\ lastTime w = time.
Proof.
  destruct init_pushes as (w0 & R0 & _). destruct (loop_total time w0) as (w & R & T).
  exists w. unfold init. rewrite (st_bind_some _ _ _ _ _ R0). split; assumption.
Qed.

(** C4. The script never throws and every loop ends within the fuel it
    is given: [init] from the empty state and every frame from any state,
    at any timestamp (NaN and the infinities included), return, and leave
    [lastTime] at that timestamp.  The [for] loops get the array's length
    as fuel and [js_for] fails when the fuel runs out while its test
    still holds, so returning means that every loop stopped on its own
    test [i < boids.length], after reading only defined agents. *)
Theorem script_terminates :
  (forall time, exists w, init time initialWorld = Some (tt, w) /\ lastTime w = time)
  /\ (forall time w, exists w', loop time w = Some (tt, w') /\ lastTime w' = time).
Proof. split; [apply init_total | apply loop_total]. Qed.
End Termination.

(** ** Reachable states *)

Section Reachable.
Context `{Screen} `{Rng}.

(** The states the script reaches: [init] at a timestamp [t >= 0] (the
    clock of [performance.now()] starts at 0), then frames whose
    timestamps do not decrease, as [requestAnimationFrame] supplies them. *)
Inductive reachable : world -> Prop :=
| reachable_init (t : R) (w : world) :
    (0 <= t)%R -> init (Fin t) initialWorld = Some (tt, w) -> reachable w
| reachable_loop (w w' : world) (t l : R) :
    reachable w -> lastTime w = Fin l -> (l <= t)%R -> loop (Fin t) w = Some (tt, w') ->
    reachable w'.

(** What holds between two frames. *)
Definition frame_inv (w : world) : Prop :=
  Forall boid_ok (boids w) /\ Forall in_band (boids w)
  /\ (boidAmount <= length (boids w) <= maxBoidAmount)%nat
  /\ exists l, lastTime w = Fin l /\ (0 <= l)%R.

Hypothesis wide : (20 <= innerWidth)%R.
Hypothesis tall : (20 <= innerHeight)%R.

Lemma init_run (t : R) :
  (0 <= t)%R ->
  exists w, init (Fin t) initialWorld = Some (tt, w) /\ frame_inv w /\ lastTime w = Fin t.
Proof.
  intros Ht. destruct init_pushes as (w0 & R0 & L0 & T0 & Ok0).
  destruct (loop_frame t 0 w0 T0 Ht Ok0 ltac:(rewrite L0; cbv; lia) wide tall)
    as (w & R & T & L & Ok & Band & _).
  exists w. unfold init. rewrite (st_bind_some _ _ _ _ _ R0). split; [exact R|].
  split; [|exact T]. repeat split; [assumption.. | lia | lia | eauto].
Qed.

Lemma frame_inv_loop (w : world) (t l : R) :
  frame_inv w -> lastTime w = Fin l -> (l <= t)%R ->
  exists w', loop (Fin t) w = Some (tt, w') /\ frame_inv w' /\ lastTime w' = Fin t.
Proof.
  intros (Ok & _ & Hlen & l0 & T0 & Hl0) Hl Hle.
  destruct (loop_frame t l w Hl Hle Ok ltac:(lia) wide tall) as (w' & R & T & L & Ok' & Band & _).
  rewrite Hl in T0. injection T0 as <-.
  exists w'. split; [exact R|]. split; [|exact T]. repeat split; [assumption.. | lia | lia |].
  exists t. split; [exact T | lra].
Qed.
End Reachable.

Section ReachableTheorems.
Context `{Screen} `{Rng}.
Hypothesis wide : (20 <= innerWidth)%R.
Hypothesis tall : (20 <= innerHeight)%R.

(** C1. Every state the script reaches, in a window of at least 20 x 20,
    holds between [boidAmount] and [maxBoidAmount] agents, all of the
    right shape and NaN or within 4.52 pixels of their clamped band, with
    a finite non-negative [lastTime]; and the next frame, at any
    timestamp not before [lastTime], runs without throwing. *)
Theorem reachable_frame_inv (w : world) :
  reachable w ->
  frame_inv w /\ forall t l, lastTime w = Fin l -> (l <= t)%R ->
    exists w', loop (Fin t) w = Some (tt, w') /\ reachable w'.
Proof.
  intros Hr. assert (Hinv : frame_inv w).
  { induction Hr as [t w Ht R | w w' t l _ IH Hl Hle R].
    - destruct (init_run wide tall t Ht) as (w' & R' & Inv & _). congruence.
    - destruct (frame_inv_loop wide tall w t l IH Hl Hle) as (w'' & R' & Inv & _). congruence. }
  split; [exact Hinv|]. intros t l Hl Hle.
  destruct (frame_inv_loop wide tall w t l Hinv Hl Hle) as (w' & R & _).
  exists w'. split; [exact R | eapply reachable_loop; eassumption].
Qed.

(** C14. Size and speed are fixed at creation: a frame on a state between
    frames, at a timestamp not before [lastTime], keeps the size, speed
    and colour of the agent at every index that existed before it (the
    controller only appends on a forward clock, and no step writes these
    fields). *)
Theorem loop_keeps_shape (w : world) (t l : R) :
  frame_inv w -> lastTime w = Fin l -> (l <= t)%R ->
  exists w', loop (Fin t) w = Some (tt, w')
    /\ forall j b, boids w !! j = Some b ->
         exists b', boids w' !! j = Some b' /\ size b' = size b /\ speed b' = speed b
                    /\ color b' = color b.
Proof.
  intros (Ok & _ & Hlen & _) Hl Hle.
  destruct (loop_frame t l w Hl Hle Ok ltac:(lia) wide tall) as (w' & R & _ & _ & _ & _ & Sh & _).
  exists w'. split; [exact R|]. intros j b Eb. destruct (Sh j b Eb) as (b' & E & S). eauto.
Qed.

(** C10. Liveness of the controller: on a display faster than 60 Hz
    (frames less than [1000 / 60] ms apart, the same timestamp included),
    every state between frames reaches [maxBoidAmount] agents after
    [maxBoidAmount - length] frames, one new agent per frame, and is
    still a state between frames there. *)
Theorem fast_frames_fill (delta : R) (w : world) :
  frame_inv w -> (0 <= delta < 50 / 3)%R ->
  exists w', run_frames delta (maxBoidAmount - length (boids w)) w = Some w'
    /\ length (boids w') = maxBoidAmount /\ frame_inv w'.
Proof.
  intros Inv Hd. remember (maxBoidAmount - length (boids w))%nat as k eqn:Hk.
  revert w Inv Hk. induction k as [|k IH]; intros w Inv Hk.
  - exists w. split; [reflexivity|]. split; [|exact Inv].
    destruct Inv as (_ & _ & Hlen & _). lia.
  - pose proof Inv as (Ok & _ & Hlen & l & Hl & Hl0).
    destruct (loop_frame (l + delta) l w Hl ltac:(lra) Ok ltac:(lia) wide tall)
      as (w1 & R1 & _ & _ & _ & _ & _ & L1).
    rewrite growTest_fast in L1 by lra. rewrite (proj2 (Nat.ltb_lt _ _)) in L1 by lia.
    destruct (frame_inv_loop wide tall w (l + delta) l Inv Hl ltac:(lra)) as (w2 & R2 & Inv2 & _).
    rewrite R1 in R2. injection R2 as <-.
    destruct (IH w1 Inv2 ltac:(lia)) as (w' & R' & L' & Inv').
    exists w'. split; [|auto]. cbn [run_frames]. rewrite Hl. cbn [nadd]. rewrite R1. exact R'.
Qed.
End ReachableTheorems.

Lemma reachable_frame_inv_witness :
  exists w, @reachable demoScreen halfRng w /\ @frame_inv demoScreen w
    /\ forall t l, lastTime w = Fin l -> (l <= t)%R ->
         exists w', @loop demoScreen halfRng (Fin t) w = Some (tt, w') /\ @reachable demoScreen halfRng w'.
Proof.
  assert (HW : (20 <= @innerWidth demoScreen)%R) by (cbn; lra).
  assert (HH : (20 <= @innerHeight demoScreen)%R) by (cbn; lra).
  destruct (@init_run demoScreen halfRng HW HH 0 (Rle_refl 0)) as (w & R & _).
  assert (Hr : @reachable demoScreen halfRng w) by (apply (reachable_init 0); [lra | exact R]).
  exists w. split; [exact Hr|]. apply (@reachable_frame_inv demoScreen halfRng HW HH w Hr).
Defined.

(** ** Witnesses *)

Lemma updateBoid_no_neighbour_witness :
  let b2 := wanderStep (agentAt 0 0 5) (Fin (@rng_draw halfRng (draws farWorld))) (Fin (1 / 50)) in
  exists w4 bc,
    @applyCollisions demoScreen 0 (mkWorld (<[0%nat := b2]> (boids farWorld))
                                    (lastTime farWorld) (S (draws farWorld)))
      = Some (tt, w4)
    /\ boids w4 !! 0%nat = Some bc /\ angle bc = angle (agentAt 0 0 5)
    /\ speed bc = speed (agentAt 0 0 5)
    /\ @updateBoid demoScreen halfRng 0 (Fin (1 / 50)) farWorld
       = Some (tt, mkWorld (<[0%nat := integrate bc (Fin (1 / 50))]> (boids w4)) (lastTime w4) (draws w4)).
Proof.
  apply (@updateBoid_no_neighbour demoScreen halfRng 0 _ farWorld (agentAt 0 0 5));
    [reflexivity | apply farWorld_alone].
Defined.

Lemma loop_keeps_shape_witness :
  exists w l, @frame_inv demoScreen w /\ lastTime w = Fin l
    /\ exists w', @loop demoScreen halfRng (Fin l) w = Some (tt, w')
         /\ forall j b, boids w !! j = Some b ->
              exists b', boids w' !! j = Some b' /\ size b' = size b /\ speed b' = speed b
                         /\ color b' = color b.
Proof.
  assert (HW : (20 <= @innerWidth demoScreen)%R) by (cbn; lra).
  assert (HH : (20 <= @innerHeight demoScreen)%R) by (cbn; lra).
  destruct (@init_run demoScreen halfRng HW HH 0 (Rle_refl 0)) as (w & _ & Inv & _).
  pose proof Inv as (_ & _ & _ & l & T & _).
  exists w, l. split; [exact Inv|]. split; [exact T|].
  apply (@loop_keeps_shape demoScreen halfRng HW HH w l l Inv T (Rle_refl l)).
Defined.

Lemma fast_frames_fill_witness :
  exists w, @frame_inv demoScreen w
    /\ exists w', @run_frames demoScreen halfRng 10 (maxBoidAmount - length (boids w)) w = Some w'
         /\ length (boids w') = maxBoidAmount /\ @frame_inv demoScreen w'.
Proof.
  assert (HW : (20 <= @innerWidth demoScreen)%R) by (cbn; lra).
  assert (HH : (20 <= @innerHeight demoScreen)%R) by (cbn; lra).
  destruct (@init_run demoScreen halfRng HW HH 0 (Rle_refl 0)) as (w & _ & Inv & _).
  exists w. split; [exact Inv|].
  apply (@fast_frames_fill demoScreen halfRng HW HH 10 w Inv). lra.
Defined.

(** ** The end-of-frame clamp does not hold *)

Section Alone.
Context `{Screen} `{Rng}.

(** A lone agent: the scan finds no neighbour and the collision loop is
    empty, so [updateBoid] is the wander step, the clamp and the
    integration step. *)
Lemma updateBoid_alone (dt lt : num) (b : boid) (n : nat) :
  updateBoid 0 dt (mkWorld [b] lt n)
  = Some (tt, mkWorld [integrate (clampBoid (wanderStep b (Fin (rng_draw n)) dt)) dt] lt (S n)).
Proof. reflexivity. Qed.
End Alone.

(** An agent of size 5 touching the left edge, heading and wandering
    left ([PI]). *)
Definition edgeAgent : boid :=
  mkBoid (Fin 5) (Fin 300) (Fin PI) (Fin PI) (Fin 200) (Fin 5) (hsl (Fin 0)).
Definition edgeWorld : world := mkWorld [edgeAgent] (Fin 0) 0.

Lemma deltaTime_20 : deltaTimeOf (Fin 20) (Fin 0) = Fin (1 / 50).
Proof.
  unfold deltaTimeOf. autorewrite with fireflies_rw. f_equal.
  unfold Rmin. destruct (Rle_dec _ _); lra.
Qed.

(** C7. The hard clamp does not hold at the end of a frame: the clamp of
    [applyCollisions] runs before the integration step of lines 91-92, so
    an agent of size 5 at [x = 5] heading left ends a 20 ms frame at
    [x = 5 - 206 / 50 < 5], outside [[size, width - size]]. *)
Theorem loop_leaves_clamp :
  exists w' b r, @loop demoScreen halfRng (Fin 20) edgeWorld = Some (tt, w')
    /\ boids w' !! 0%nat = Some b /\ size b = Fin 5 /\ x b = Fin r /\ (r < 5)%R.
Proof.
  destruct (@loopHead_run demoScreen halfRng (Fin 20) edgeWorld)
    as (b & [bs lt n] & R & _ & T & Hbs).
  cbv zeta in Hbs. cbn [lastTime boids edgeWorld length] in *. subst lt.
  rewrite deltaTime_20 in R, Hbs.
  assert (Hf : fpsOf (Fin (1 / 50)) = Fin 50).
  { unfold fpsOf. rewrite ndiv_fin by lra. f_equal. field. }
  rewrite Hf in Hbs. unfold growTest, shrinkTest, ngt in Hbs. cbn in Hbs.
  rewrite !Rltb_false in Hbs by lra. cbn in Hbs. subst bs.
  assert (L : @loop demoScreen halfRng (Fin 20) edgeWorld = Some (tt, mkWorld
      [integrate (@clampBoid demoScreen (wanderStep edgeAgent (Fin (1/2)) (Fin (1/50)))) (Fin (1/50))]
      (Fin 20) (S n))).
  { unfold loop. rewrite (st_bind_some _ _ _ _ _ R).
    cbn [st_bind st_get js_for length boids Nat.ltb Nat.leb].
    rewrite (st_bind_some _ _ _ _ _ (updateBoid_alone _ _ _ _)). reflexivity. }
  do 3 eexists. split; [exact L|]. split; [reflexivity|].
  split; [exact (proj1 (clampBoid_shape _))|].
  unfold integrate. boid_simpl.
  rewrite clampBoid_x, (proj1 (clampBoid_angles _)), (proj2 (clampBoid_angles _)).
  unfold clampCoord, wanderStep, edgeAgent. boid_simpl.
  unfold width, demoScreen, boidWanderSpeed, boidWanderRadius, nPI. cbn [innerWidth].
  unfold ngt. autorewrite with fireflies_rw. solve_R. autorewrite with fireflies_rw.
  rewrite (proj1 (proj2 (clampBoid_shape _))). boid_simpl. solve_R.
  replace (PI + (1 / 2 * 2 - 1) * 40 * (1 / 50))%R with PI by field.
  rewrite cos_PI. autorewrite with fireflies_rw. split; [reflexivity | lra].
Qed.
