(* ===== verification/Render.v ===== *)
(** * The renderer and the whole frame

    What [loop] (lines 43-75) and [init] (32-41) send to the canvas, and
    [drawBoid(index)] (194-238).  The 2D context is write-only for the
    script: it sets [fillStyle], [font] and [textBaseline] and calls
    [fillRect], [fillText], [beginPath], [arc] and [fill], and never reads
    anything back; the only other call the script makes on the browser is
    [requestAnimationFrame(loop)] (line 74).  Each of these calls is an
    event [cmd], and the canvas is the trace of the events sent so far,
    appended in order.  The state of the whole script is a [scene]: the
    simulation [world] and the trace.

    [drawBoid] reads [boids[index]] (which throws on [undefined]) and emits
    its two discs: the agent in its colour and a white dot a [size] away in
    the direction of its heading.  [frame] is [loop] with its drawing:
    the trail rectangle, the controller, the FPS label, then [updateBoid(i)]
    followed by [drawBoid(i)] for each index, and last the request of the
    next frame.  [boot] is [init] with the canvas sized to the window.

    The theorems show that drawing never changes the simulation: every
    [frame] and [boot] runs exactly as [loop] and [init] do on the world,
    and only appends to the trace ([frame_refines_loop]); what one frame
    draws, ending with its request of the next frame ([frame_trace]); and
    where the heading dot of an agent is drawn.
    The text of [fps.toFixed(1)] is kept as the number [fps]. *)

From stdpp Require Import strings.
From S2P Require Import Prelude JSNum Boid Population Collisions Forces Frame.

Open Scope num_scope.

(** ** Canvas events *)

(** A value of [fillStyle]: a CSS colour string of the script, or an
    agent's colour. *)
Inductive fill : Type :=
| Named (s : string)
| BoidColor (c : css_color).

(** The text of [fillText]: ["FPS: " + fps.toFixed(1)], kept as [fps]. *)
Inductive label : Type := FpsLabel (fps : num).

Inductive cmd : Type :=
| SetCanvasSize (w h : num)
| SetFillStyle (f : fill)
| FillRect (x y w h : num)
| SetFont (font : string)
| SetTextBaseline (b : string)
| FillText (text : label) (x y : num)
| BeginPath
| Arc (x y r a0 a1 : num)
| Fill
(** [window.requestAnimationFrame(loop)]: the only callback the script
    schedules. *)
| RequestAnimationFrame.

Record scene : Type := mkScene {
  sim : world;
  canvas : list cmd
}.

(** ** The two effects of the whole script *)

(** A simulation step, run on the world part. *)
Definition on_sim {A} (m : ST world A) : ST scene A :=
  fun sc => match m (sim sc) with
            | Some (a, w') => Some (a, mkScene w' (canvas sc))
            | None => None
            end.

Lemma on_sim_some {A} (m : ST world A) (sc : scene) (a : A) (w' : world) :
  m (sim sc) = Some (a, w') -> on_sim m sc = Some (a, mkScene w' (canvas sc)).
Proof. intros E. unfold on_sim. rewrite E. reflexivity. Qed.

(** One call on the 2D context. *)
Definition emit (c : cmd) : ST scene unit :=
  fun sc => Some (tt, mkScene (sim sc) (canvas sc ++ [c])).

Lemma emit_run (c : cmd) (sc : scene) :
  emit c sc = Some (tt, mkScene (sim sc) (canvas sc ++ [c])).
Proof. reflexivity. Qed.

Section Render.
Context `{Screen} `{Rng}.

(** [drawBoid(index)], lines 194-221 (the rest of the body is commented
    out in the source). *)
Definition drawBoid (index : nat) : ST scene unit :=
  do boid <- on_sim (get_boid index);
  do emit (SetFillStyle (BoidColor (color boid)));
  do emit BeginPath;
  do emit (Arc (x boid) (y boid) (size boid) (Fin 0) (nPI * Fin 2));
  do emit Fill;
  do emit (SetFillStyle (Named "white"));
  do emit BeginPath;
  do emit (Arc (x boid + ncos (angle boid) * size boid)
               (y boid + nsin (angle boid) * size boid)
               (size boid / Fin 4) (Fin 0) (nPI * Fin 2));
  emit Fill.

(** Lines 62-67: the FPS label on a black box. *)
Definition drawFps (fps : num) : ST scene unit :=
  do emit (SetFont "12px monospace");
  do emit (SetFillStyle (Named "black"));
  do emit (FillRect (Fin 0) (Fin 0) (Fin 6 * Fin 12) (Fin 12));
  do emit (SetTextBaseline "top");
  do emit (SetFillStyle (Named "white"));
  emit (FillText (FpsLabel fps) (Fin 0) (Fin 0)).

(** [loop()], lines 43-75: its last statement [requestAnimationFrame(loop)]
    asks the browser to run the next [frame]. *)
Definition frame (time : num) : ST scene unit :=
  do emit (SetFillStyle (Named "rgba(0, 0, 0, 0.025)"));
  do emit (FillRect (Fin 0) (Fin 0) width height);
  do deltaTime <- on_sim (loopHead time);
  do drawFps (fpsOf deltaTime);
  do sc <- st_get;
  do js_for (length (boids (sim sc))) (fun sc => length (boids (sim sc)))
       (fun i => do on_sim (updateBoid i deltaTime); drawBoid i) 0;
  emit RequestAnimationFrame.

(** [init()], lines 32-41. *)
Definition boot (time : num) : ST scene unit :=
  do emit (SetCanvasSize width height);
  do js_for boidAmount (fun _ => boidAmount) (fun _ => on_sim pushNewBoid) 0;
  frame time.
End Render.

(** ** Drawing does not change the simulation *)

(** [m'] runs as [m] on the world part, throws exactly when [m] does, and
    only appends to the trace. *)
Definition refines {A} (m : ST world A) (m' : ST scene A) : Prop :=
  forall sc, match m (sim sc) with
             | Some (a, w') => exists tr, m' sc = Some (a, mkScene w' (canvas sc ++ tr))
             | None => m' sc = None
             end.

Lemma refines_on_sim {A} (m : ST world A) : refines m (on_sim m).
Proof.
  intros sc. unfold on_sim. destruct (m (sim sc)) as [[a w']|]; [exists []|]; 
    rewrite ?app_nil_r; reflexivity.
Qed.

Lemma refines_emit (c : cmd) : refines (st_ret tt) (emit c).
Proof. intros sc. exists [c]. reflexivity. Qed.

Lemma refines_emit_l {A} (c : cmd) (m : ST world A) (m' : ST scene A) :
  refines m m' -> refines m (do emit c; m').
Proof.
  intros R sc. specialize (R (mkScene (sim sc) (canvas sc ++ [c]))). cbn in R.
  unfold st_bind, emit. destruct (m (sim sc)) as [[a w']|]; [|exact R].
  destruct R as [tr E]. exists ([c] ++ tr). rewrite E, app_assoc. reflexivity.
Qed.

Lemma refines_bind {A B} (m : ST world A) (m' : ST scene A)
    (k : A -> ST world B) (k' : A -> ST scene B) :
  refines m m' -> (forall a, refines (k a) (k' a)) -> refines (st_bind m k) (st_bind m' k').
Proof.
  intros Rm Rk sc. specialize (Rm sc). unfold st_bind.
  destruct (m (sim sc)) as [[a w1]|]; [|rewrite Rm; reflexivity].
  destruct Rm as [tr1 E1]. rewrite E1.
  specialize (Rk a (mkScene w1 (canvas sc ++ tr1))). cbn in Rk.
  destruct (k a w1) as [[b w2]|]; [|exact Rk].
  destruct Rk as [tr2 E2]. exists (tr1 ++ tr2). rewrite E2, app_assoc. reflexivity.
Qed.

Lemma refines_get {A} (k : world -> ST world A) (k' : scene -> ST scene A) :
  (forall sc, refines (k (sim sc)) (k' sc)) -> refines (st_bind st_get k) (st_bind st_get k').
Proof. intros R sc. exact (R sc sc). Qed.

#[export] Instance refines_proper {A} : Proper (st_eq ==> eq ==> iff) (@refines A).
Proof.
  intros m1 m2 E m' ? <-. split; intros R sc; [rewrite <- E | rewrite E]; apply R.
Qed.

Lemma refines_ret {A} (a : A) : refines (st_ret a) (st_ret a).
Proof. intros sc. exists []. rewrite app_nil_r. destruct sc; reflexivity. Qed.

Lemma refines_js_for (fuel : nat) (bound : world -> nat) (bound' : scene -> nat)
    (body : nat -> ST world unit) (body' : nat -> ST scene unit) (i : nat) :
  (forall sc, bound' sc = bound (sim sc)) -> (forall i, refines (body i) (body' i)) ->
  refines (js_for fuel bound body i) (js_for fuel bound' body' i).
Proof.
  intros Hb Rb. revert i. induction fuel as [|f IH]; intros i; cbn [js_for];
    apply refines_get; intros sc; rewrite Hb;
    (destruct (i <? bound (sim sc))%nat; [| apply refines_ret]).
  - intros ?. reflexivity.
  - apply refines_bind; auto.
Qed.

(** Emitting a fixed list of calls before [m']. *)
Ltac refines_emits := repeat (apply refines_emit_l || apply refines_emit).

(** A call appended after [m']. *)
Lemma refines_then_emit (c : cmd) (m : ST world unit) (m' : ST scene unit) :
  refines m m' -> refines m (do m'; emit c).
Proof.
  intros R sc. specialize (R sc). unfold st_bind, emit.
  destruct (m (sim sc)) as [[[] w']|]; [|rewrite R; reflexivity].
  destruct R as [tr E]. rewrite E. exists (tr ++ [c]). rewrite app_assoc. reflexivity.
Qed.

Lemma refines_seq_l {A} (d : ST scene unit) (m : ST world A) (m' : ST scene A) :
  refines (st_ret tt) d -> refines m m' -> refines m (do d; m').
Proof.
  intros Rd Rm. assert (E : (do st_ret tt; m) ≈ m) by (intros w; reflexivity).
  rewrite <- E. apply refines_bind; auto.
Qed.

Section RenderRefines.
Context `{Screen} `{Rng}.

Lemma drawFps_refines (fps : num) : refines (st_ret tt) (drawFps fps).
Proof. unfold drawFps. refines_emits. Qed.

(** [drawBoid(index)] only reads [boids[index]]. *)
Lemma drawBoid_refines (index : nat) :
  refines (do _ <- get_boid index; st_ret tt) (drawBoid index).
Proof.
  unfold drawBoid. apply refines_bind; [apply refines_on_sim | intros b]. refines_emits.
Qed.

(** One iteration of the frame's [for] loop. *)
Lemma frame_body_refines (dt : num) (i : nat) :
  refines (updateBoid i dt) (do on_sim (updateBoid i dt); drawBoid i).
Proof.
  apply (refines_proper _ _ (updateBoid_then_get i dt) _ _ eq_refl).
  apply refines_bind; [apply refines_on_sim|].
  intros []. apply drawBoid_refines.
Qed.

(** ** What a frame draws *)

(** The calls of [drawBoid] for agent [b], of the trail (lines 44-45)
    and of the FPS label (lines 62-67). *)
Definition drawCmds (b : boid) : list cmd :=
  [SetFillStyle (BoidColor (color b)); BeginPath;
   Arc (x b) (y b) (size b) (Fin 0) (nPI * Fin 2); Fill;
   SetFillStyle (Named "white"); BeginPath;
   Arc (x b + ncos (angle b) * size b) (y b + nsin (angle b) * size b)
       (size b / Fin 4) (Fin 0) (nPI * Fin 2); Fill].

Definition trailCmds : list cmd :=
  [SetFillStyle (Named "rgba(0, 0, 0, 0.025)"); FillRect (Fin 0) (Fin 0) width height].

Definition fpsCmds (fps : num) : list cmd :=
  [SetFont "12px monospace"; SetFillStyle (Named "black");
   FillRect (Fin 0) (Fin 0) (Fin 6 * Fin 12) (Fin 12); SetTextBaseline "top";
   SetFillStyle (Named "white"); FillText (FpsLabel fps) (Fin 0) (Fin 0)].

Lemma drawBoid_run (index : nat) (sc : scene) (b : boid) :
  boids (sim sc) !! index = Some b ->
  drawBoid index sc = Some (tt, mkScene (sim sc) (canvas sc ++ drawCmds b)).
Proof.
  intros E. unfold drawBoid, st_bind at 1, on_sim. rewrite (get_boid_some _ _ _ E).
  unfold st_bind, emit. cbn. rewrite <- !app_assoc. reflexivity.
Qed.

Lemma frame_body_length (dt : num) (i : nat) (sc sc' : scene) :
  (do on_sim (updateBoid i dt); drawBoid i) sc = Some (tt, sc') ->
  length (boids (sim sc')) = length (boids (sim sc)).
Proof.
  intros R. pose proof (frame_body_refines dt i sc) as F.
  destruct (updateBoid i dt (sim sc)) as [[[] w']|] eqn:U; [|congruence].
  destruct F as [tr E]. rewrite E in R. injection R as <-. exact (updateBoid_length _ _ _ _ U).
Qed.

(** The iterations [k .. k + m - 1] of the frame's loop: each agent is
    drawn right after its own update, and no later update touches it. *)
Lemma st_iter_frame_body (dt : num) (k m : nat) (w w' : world) (c : list cmd) :
  (k + m = length (boids w))%nat ->
  st_iter (fun i => updateBoid i dt) (seq k m) w = Some (tt, w') ->
  st_iter (fun i => do on_sim (updateBoid i dt); drawBoid i) (seq k m)
    (mkScene w (c ++ flat_map drawCmds (take k (boids w))))
  = Some (tt, mkScene w' (c ++ flat_map drawCmds (boids w'))).
Proof.
  revert k w. induction m as [|m IH]; intros k w Hkm R.
  - injection R as <-. rewrite take_ge by lia. reflexivity.
  - cbn [seq st_iter] in *. destruct (lookup_lt_is_Some_2 (boids w) k) as [b Eb]; [lia|].
    destruct (updateBoid_local k dt w b Eb) as (w1 & b1 & R1 & F1 & _ & _ & E1).
    rewrite (st_bind_some _ _ _ _ _ R1) in R.
    pose proof F1 as (L1 & _).
    rewrite st_bind_assoc, (st_bind_some _ _ _ _ _ (on_sim_some _ (mkScene w _) _ _ R1)).
    cbn [sim canvas]. rewrite (st_bind_some _ _ _ _ _ (drawBoid_run _ (mkScene w1 _) _ E1)).
    cbn [sim canvas]. rewrite <- (IH (S k) w1) by (assumption || lia).
    rewrite (take_S_r _ _ _ E1), (frame_local_take _ _ _ F1), flat_map_app, !app_assoc.
    cbn [flat_map]. rewrite ?app_nil_r, <- ?app_assoc. reflexivity.
Qed.

Lemma drawFps_run (fps : num) (sc : scene) :
  drawFps fps sc = Some (tt, mkScene (sim sc) (canvas sc ++ fpsCmds fps)).
Proof. unfold drawFps, st_bind, emit. cbn. rewrite <- !app_assoc. reflexivity. Qed.

(** One frame, when the simulation step succeeds: the exact calls. *)
Lemma frame_calls (time : num) (sc : scene) (w' : world) :
  loop time (sim sc) = Some (tt, w') ->
  frame time sc = Some (tt, mkScene w' (canvas sc ++ trailCmds
      ++ fpsCmds (fpsOf (deltaTimeOf time (lastTime (sim sc))))
      ++ flat_map drawCmds (boids w') ++ [RequestAnimationFrame])).
Proof.
  intros L. destruct (loopHead_run time (sim sc)) as (b & w1 & R1 & _).
  unfold loop in L. rewrite (st_bind_some _ _ _ _ _ R1),
    (st_bind_some _ _ w1 w1 w1), js_for_seq, Nat.sub_0_r in L
    by (reflexivity || (intros ???; apply updateBoid_length) || lia).
  unfold frame. do 2 rewrite (st_bind_some _ _ _ _ _ (emit_run _ _)). cbn [sim canvas].
  rewrite (st_bind_some _ _ _ _ _ (on_sim_some _ (mkScene (sim sc) _) _ _ R1)),
    (st_bind_some _ _ _ _ _ (drawFps_run _ _)).
  rewrite (st_bind_some _ _ _ _ _ (eq_refl (Some (_, _)) : st_get _ = _)). cbn [sim canvas].
  erewrite st_bind_some; cycle 1.
  { rewrite js_for_seq by ((intros ???; apply frame_body_length) || cbn; lia).
    cbn [sim]. rewrite Nat.sub_0_r, <- !app_assoc.
    rewrite <- (app_nil_r (canvas sc ++ _)) at 1.
    change ([] : list cmd) with (flat_map drawCmds (take 0 (boids w1))).
    exact (st_iter_frame_body _ 0 (length (boids w1)) w1 w' _ eq_refl L). }
  rewrite emit_run. cbn [sim canvas]. rewrite <- !app_assoc. reflexivity.
Qed.

(** C9. What one frame draws: when the simulation step succeeds, the
    frame sends the trail rectangle, the FPS label with [1 / deltaTime],
    then the two discs of every agent in index order, each at its
    position at the end of the frame (an agent is drawn right after its
    own update, and the updates of later agents never move it), and last
    [requestAnimationFrame(loop)]. *)
Theorem frame_trace (time : num) (sc : scene) (w' : world) :
  loop time (sim sc) = Some (tt, w') ->
  frame time sc = Some (tt, mkScene w' (canvas sc ++ trailCmds
      ++ fpsCmds (fpsOf (deltaTimeOf time (lastTime (sim sc))))
      ++ flat_map drawCmds (boids w') ++ [RequestAnimationFrame])).
Proof. apply frame_calls. Qed.

(** A frame with its drawing runs as [loop] on the world. *)
Lemma frame_refines_loop (time : num) : refines (loop time) (frame time).
Proof.
  unfold frame, loop. apply refines_emit_l, refines_emit_l.
  apply refines_bind; [apply refines_on_sim | intros dt].
  apply refines_seq_l; [apply drawFps_refines|].
  apply refines_get. intros sc. apply refines_then_emit.
  apply refines_js_for; [reflexivity | apply frame_body_refines].
Qed.

(** [init()] with its canvas set-up runs as [init] on the world. *)
Lemma boot_refines_init (time : num) : refines (init time) (boot time).
Proof.
  unfold boot, init. apply refines_emit_l, refines_bind; [|intros []; apply frame_refines_loop].
  apply refines_js_for; [reflexivity | intros; apply refines_on_sim].
Qed.

(** C8. Drawing never changes the simulation: on every state, the whole
    script as written ([init()] with the canvas set-up, lines 32-41, and
    each [loop()] with its drawing, lines 43-75) leaves the agents,
    [lastTime] and the random draws exactly as the simulation steps
    [init] and [loop] do, throws exactly when they throw, and only
    appends calls to the canvas. *)
Theorem render_refines_simulation (time : num) :
  refines (init time) (boot time) /\ refines (loop time) (frame time).
Proof. split; [apply boot_refines_init | apply frame_refines_loop]. Qed.
End RenderRefines.

(** ** Where an agent is drawn *)

Section HeadingDot.
Context `{Screen} `{Rng}.

(** C21. [drawBoid] (lines 211-221) draws the agent as a disc of radius
    [size] at its position, then a white dot of radius [size / 4] whose
    centre lies exactly [size] away from the agent's, in the direction of
    its [angle]: the dot shows the heading. *)
Theorem drawBoid_heading_dot (index : nat) (sc : scene) (b : boid) (px py a s : R) :
  boids (sim sc) !! index = Some b -> x b = Fin px -> y b = Fin py -> angle b = Fin a ->
  size b = Fin s -> (0 <= s)%R ->
  exists tr cx cy, drawBoid index sc = Some (tt, mkScene (sim sc) (canvas sc ++ tr))
    /\ tr !! 2%nat = Some (Arc (Fin px) (Fin py) (Fin s) (Fin 0) (nPI * Fin 2))
    /\ tr !! 6%nat = Some (Arc (Fin cx) (Fin cy) (Fin (s / 4)) (Fin 0) (nPI * Fin 2))
    /\ cx = (px + cos a * s)%R /\ cy = (py + sin a * s)%R
    /\ sqrt ((cx - px) * (cx - px) + (cy - py) * (cy - py)) = s.
Proof.
  intros E Hx Hy Ha Hs Hs0. exists (drawCmds b), (px + cos a * s)%R, (py + sin a * s)%R.
  split; [apply drawBoid_run, E|]. unfold drawCmds. rewrite Hx, Hy, Ha, Hs, ndiv_fin by lra.
  cbn. do 4 (split; [reflexivity|]).
  replace ((px + cos a * s - px) * (px + cos a * s - px) + (py + sin a * s - py) * (py + sin a * s - py))%R
    with (s * s)%R by (pose proof (sin2_cos2 a) as C; unfold Rsqr in C; nra).
  apply sqrt_square, Hs0.
Qed.
End HeadingDot.

(** ** Witnesses *)

Lemma frame_trace_witness :
  exists w', @loop demoScreen halfRng (Fin 20) (mkWorld [] (Fin 0) 0) = Some (tt, w')
    /\ @frame demoScreen halfRng (Fin 20) (mkScene (mkWorld [] (Fin 0) 0) [])
       = Some (tt, mkScene w' ([] ++ @trailCmds demoScreen
           ++ fpsCmds (fpsOf (deltaTimeOf (Fin 20) (Fin 0))) ++ flat_map drawCmds (boids w')
           ++ [RequestAnimationFrame])).
Proof.
  destruct (@loop_frame demoScreen halfRng 20 0 (mkWorld [] (Fin 0) 0)) as (w' & R & _);
    [reflexivity | lra | constructor | cbn; lia | cbn; lra | cbn; lra |].
  exists w'. split; [exact R|].
  apply (@frame_trace demoScreen halfRng (Fin 20) (mkScene (mkWorld [] (Fin 0) 0) []) w' R).
Defined.

Lemma drawBoid_heading_dot_witness :
  exists tr cx cy,
    drawBoid 0 (mkScene (mkWorld [agentAt 100 50 5] (Fin 0) 0) [])
      = Some (tt, mkScene (mkWorld [agentAt 100 50 5] (Fin 0) 0) ([] ++ tr))
    /\ tr !! 2%nat = Some (Arc (Fin 100) (Fin 50) (Fin 5) (Fin 0) (nPI * Fin 2))
    /\ tr !! 6%nat = Some (Arc (Fin cx) (Fin cy) (Fin (5 / 4)) (Fin 0) (nPI * Fin 2))
    /\ cx = (100 + cos 0 * 5)%R /\ cy = (50 + sin 0 * 5)%R
    /\ sqrt ((cx - 100) * (cx - 100) + (cy - 50) * (cy - 50)) = 5%R.
Proof.
  apply (drawBoid_heading_dot 0 (mkScene (mkWorld [agentAt 100 50 5] (Fin 0) 0) [])
           (agentAt 100 50 5)); (reflexivity || lra).
Defined.
