(* ===== verification/Host.v ===== *)
(** * The browser around the script

    The script is started by [init();] (line 253), and every [loop()] ends
    with [requestAnimationFrame(loop)] (line 74): the browser runs [loop]
    again at its next repaint only because it was asked to.  Each run reads
    [performance.now()], a clock that never goes back.  An exception that
    escapes [init] or [loop] ends that callback before line 74 is reached,
    so no further frame is requested and the animation stops.

    [host] is the state of the page as the browser sees it: [Loaded]
    before [init();], [Waiting] with a frame requested, [Stopped] once a
    callback ended without a request (it threw, or returned without
    calling [requestAnimationFrame]); each carries the last clock reading.
    [host_next t h] is what happens at a repaint at clock [t]: the browser
    runs the script ([boot] or [frame] of [Render]) and looks at the calls
    that run made ([after_run]); [host_step] lets the browser pick any
    [t] not before the last reading.

    Theorems: the worlds the browser shows are the reachable states of
    [Frame] with [lastTime] the last clock reading, so the browser's
    schedule is one of those [reachable] covers ([host_refines_reachable]);
    every repaint runs a frame that ends by requesting the next one, so the
    animation never stops ([host_runs_forever]). *)

From S2P Require Import Prelude JSNum Boid Population Collisions Forces Frame Render.

Open Scope num_scope.

Inductive host : Type :=
| Loaded (sc : scene) (now : R)
| Waiting (sc : scene) (now : R)
| Stopped (now : R).

(** The last reading of [performance.now()]. *)
Definition clock (h : host) : R :=
  match h with Loaded _ now | Waiting _ now | Stopped now => now end.

(** Whether a run asked for another frame. *)
Definition requests_frame (tr : list cmd) : bool :=
  existsb (fun c => match c with RequestAnimationFrame => true | _ => false end) tr.

(** The page after a callback started on [sc] at clock [t]: waiting when
    the calls it made (the part of the trace it appended) include
    [requestAnimationFrame], stopped when it threw or made no request. *)
Definition after_run (sc : scene) (r : option (unit * scene)) (t : R) : host :=
  match r with
  | Some (_, sc') =>
      if requests_frame (drop (length (canvas sc)) (canvas sc')) then Waiting sc' t
      else Stopped t
  | None => Stopped t
  end.

Section Host.
Context `{Screen} `{Rng}.

(** A repaint at clock [t]: [init();] on a loaded page, the requested
    [loop] on a waiting one; nothing once stopped. *)
Definition host_next (t : R) (h : host) : host :=
  match h with
  | Loaded sc _ => after_run sc (boot (Fin t) sc) t
  | Waiting sc _ => after_run sc (frame (Fin t) sc) t
  | Stopped now => Stopped now
  end.

Inductive host_step : host -> host -> Prop :=
| host_tick (h : host) (t : R) : (clock h <= t)%R -> host_step h (host_next t h).

(** The page before [init();]: no agent, [lastTime = 0], an empty canvas,
    the clock at 0. *)
Definition page0 : host := Loaded (mkScene initialWorld []) 0.

(** The pages the browser reaches from [page0]. *)
Inductive host_reach : host -> Prop :=
| host_reach_start : host_reach page0
| host_reach_step (h h' : host) : host_reach h -> host_step h h' -> host_reach h'.
End Host.

(** ** The script never stops the animation *)

Lemma after_run_request (sc : scene) (w : world) (tr : list cmd) (t : R) :
  after_run sc (Some (tt, mkScene w (canvas sc ++ tr ++ [RequestAnimationFrame]))) t
  = Waiting (mkScene w (canvas sc ++ tr ++ [RequestAnimationFrame])) t.
Proof.
  unfold after_run. cbn [canvas]. rewrite drop_app_length.
  unfold requests_frame. rewrite existsb_app, orb_true_r. reflexivity.
Qed.

Section HostRuns.
Context `{Screen} `{Rng}.

(** [init()] with its drawing runs to completion on a page with no agent
    and ends by requesting a frame. *)
Lemma boot_runs (t : num) (sc : scene) :
  sim sc = initialWorld ->
  exists w tr, init t initialWorld = Some (tt, w) /\ lastTime w = t
    /\ boot t sc = Some (tt, mkScene w (canvas sc ++ tr ++ [RequestAnimationFrame])).
Proof.
  intros E. destruct init_pushes as (w0 & R0 & _). destruct (loop_total t w0) as (w & L & T).
  pose proof (refines_js_for boidAmount (fun _ => boidAmount) (fun _ => boidAmount)
    (fun _ => pushNewBoid) (fun _ => on_sim pushNewBoid) 0 (fun _ => eq_refl)
    (fun _ => refines_on_sim _) (mkScene (sim sc) (canvas sc ++ [SetCanvasSize width height])))
    as J.
  cbn [sim canvas] in J. rewrite E, R0 in J. destruct J as (tr0 & J).
  exists w, ([SetCanvasSize width height] ++ tr0 ++ trailCmds
    ++ fpsCmds (fpsOf (deltaTimeOf t (lastTime w0))) ++ flat_map drawCmds (boids w)).
  split; [unfold init; rewrite (st_bind_some _ _ _ _ _ R0); exact L|]. split; [exact T|].
  unfold boot. rewrite (st_bind_some _ _ _ _ _ (emit_run _ _)). cbn [sim canvas]. rewrite E.
  rewrite (st_bind_some _ _ _ _ _ J).
  rewrite (frame_calls t (mkScene w0 _) w L). cbn [canvas sim]. rewrite <- !app_assoc. reflexivity.
Qed.

(** [loop()] with its drawing runs to completion on every page and ends by
    requesting a frame. *)
Lemma frame_runs (t : num) (sc : scene) :
  exists w tr, loop t (sim sc) = Some (tt, w) /\ lastTime w = t
    /\ frame t sc = Some (tt, mkScene w (canvas sc ++ tr ++ [RequestAnimationFrame])).
Proof.
  destruct (loop_total t (sim sc)) as (w & L & T).
  exists w, (trailCmds ++ fpsCmds (fpsOf (deltaTimeOf t (lastTime (sim sc))))
    ++ flat_map drawCmds (boids w)).
  split; [exact L|]. split; [exact T|]. rewrite (frame_calls t sc w L), <- !app_assoc. reflexivity.
Qed.

(** The canvas of a page that is still drawing. *)
Definition page_canvas (h : host) : list cmd :=
  match h with Loaded sc _ | Waiting sc _ => canvas sc | Stopped _ => [] end.

(** A page where the script has not failed: a loaded page holds the
    initial world. *)
Definition running (h : host) : Prop :=
  match h with Loaded sc _ => sim sc = initialWorld | Waiting _ _ => True | Stopped _ => False end.

Lemma host_next_waiting (h : host) (t : R) :
  running h -> exists sc' tr, host_next t h = Waiting sc' t
    /\ canvas sc' = page_canvas h ++ tr ++ [RequestAnimationFrame].
Proof.
  destruct h as [sc now|sc now|now]; cbn [host_next running page_canvas]; intros Hr;
    [| |contradiction].
  - destruct (boot_runs (Fin t) sc Hr) as (w & tr & _ & _ & B).
    rewrite B, after_run_request. do 2 eexists; split; reflexivity.
  - match goal with |- context [frame ?T sc] => destruct (frame_runs T sc) as (w & tr & _ & _ & B) end.
    rewrite B, after_run_request. do 2 eexists; split; reflexivity.
Qed.

Lemma clock_host_next (h : host) (t : R) : running h -> clock (host_next t h) = t.
Proof. intros Hr. destruct (host_next_waiting h t Hr) as (sc' & tr & -> & _). reflexivity. Qed.

(** C3. The animation runs forever: no page the browser reaches from
    [init();] is stopped, and at every later repaint the requested [loop]
    runs without throwing and its last call is again
    [requestAnimationFrame(loop)] (line 74), after the calls it appends
    to the canvas. *)
Theorem host_runs_forever (h : host) :
  host_reach h ->
  (forall now, h <> Stopped now)
  /\ forall t, (clock h <= t)%R ->
       exists sc' tr, host_next t h = Waiting sc' t
         /\ canvas sc' = page_canvas h ++ tr ++ [RequestAnimationFrame].
Proof.
  intros Hr. assert (Hrun : running h).
  { induction Hr as [|h h' _ IH Hs]; [reflexivity|]. inversion Hs as [h0 t Ht]; subst.
    destruct (host_next_waiting h t IH) as (sc' & tr & -> & _). exact I. }
  split; [intros now ->; exact Hrun | intros t _; exact (host_next_waiting h t Hrun)].
Qed.
End HostRuns.

(** ** The browser runs the frames of [Frame] *)

Section HostRefines.
Context `{Screen} `{Rng}.

(** The page before [init();], or a page between frames whose world is a
    reachable state of [Frame] and whose [lastTime] is the last clock
    reading. *)
Definition page_ok (h : host) : Prop :=
  match h with
  | Loaded sc now => sc = mkScene initialWorld [] /\ now = 0%R
  | Waiting sc now => reachable (sim sc) /\ lastTime (sim sc) = Fin now /\ (0 <= now)%R
  | Stopped _ => False
  end.

(** C2. The browser runs the script only on the schedules [Frame.reachable]
    covers: every page it reaches, with repaints at a clock that never
    goes back, is the initial page or holds a reachable world (so
    [init] at a time [t >= 0], then frames at non-decreasing times) whose
    [lastTime] is the last reading of [performance.now()]. *)
Theorem host_refines_reachable (h : host) : host_reach h -> page_ok h.
Proof.
  induction 1 as [|h h' _ IH Hs]; [split; reflexivity|]. inversion Hs as [h0 t Ht]; subst.
  destruct h as [sc now|sc now|now]; cbn [page_ok clock host_next] in IH, Ht |- *;
    [| |contradiction].
  - destruct IH as [-> ->].
    destruct (boot_runs (Fin t) (mkScene initialWorld []) eq_refl) as (w & tr & I & T & B).
    rewrite B, after_run_request. cbn [page_ok sim].
    split; [exact (reachable_init t w Ht I)|]. split; [exact T | exact Ht].
  - destruct IH as (Rw & Hl & Hn). destruct (frame_runs (Fin t) sc) as (w & tr & L & T & B).
    rewrite B, after_run_request. cbn [page_ok sim].
    split; [exact (reachable_loop _ _ t now Rw Hl Ht L)|]. split; [exact T | lra].
Qed.
End HostRefines.

(** ** Witnesses *)

Lemma host_runs_forever_witness :
  (forall now, @page0 <> Stopped now)
  /\ forall t, (clock page0 <= t)%R ->
       exists sc' tr, @host_next demoScreen halfRng t page0 = Waiting sc' t
         /\ canvas sc' = page_canvas page0 ++ tr ++ [RequestAnimationFrame].
Proof. apply (@host_runs_forever demoScreen halfRng page0). constructor. Defined.

(** The page after [init();] at clock 0 and one frame at 16 ms. *)
Lemma host_refines_reachable_witness :
  @host_reach demoScreen halfRng (@host_next demoScreen halfRng 16 (@host_next demoScreen halfRng 0 page0))
  /\ @page_ok demoScreen halfRng (@host_next demoScreen halfRng 16 (@host_next demoScreen halfRng 0 page0)).
Proof.
  assert (R1 : @host_reach demoScreen halfRng (@host_next demoScreen halfRng 0 page0)).
  { apply (host_reach_step page0); [constructor | constructor; unfold page0; cbn [clock]; lra]. }
  assert (R2 : @host_reach demoScreen halfRng
                 (@host_next demoScreen halfRng 16 (@host_next demoScreen halfRng 0 page0))).
  { apply (host_reach_step _ _ R1). constructor. rewrite clock_host_next by reflexivity. lra. }
  split; [exact R2 | exact (host_refines_reachable _ R2)].
Defined.
